(** * ivf-web: the conversion server and its progress subscriber

    A shallow embedding of [backend/server.js] (the conversion server, in the
    two variants the repository carries) and of the progress handling of
    [frontend/src/App.tsx], with the properties of the job orchestration
    proved or refuted on it.

    Conventions of the embedding:
    - a JavaScript number is a [JS.number]: NaN, the two infinities, or a
      finite value kept as an exact rational.  Rounding of finite arithmetic
      and the sign of zero are not modelled; every property below is about
      ordering, division by zero, NaN propagation, and the whole part of
      numbers below 2^53 only;
    - the process state the handlers mutate ([conversionStats], pending
      [setTimeout] callbacks, [io.emit] broadcasts, HTTP responses, the
      upload directory, the commands handed to ffmpeg) is threaded
      explicitly through every handler;
    - what Node and the installed packages provide ([path],
      [String.prototype.toLowerCase], locale time formatting, the way multer
      treats a file of exactly the size limit) is an interface, [Runtime];
      theorems hold for every implementation of it and are exercised with
      [posix];
    - an exception is modelled where the code can raise one: [size] of
      fluent-ffmpeg on a size it does not take, and [res.json] on a response
      that was sent.  Thrown in a request handler it is answered by Express
      with status 500; thrown in a listener of the ffmpeg command nothing
      catches it, and it is recorded in [thrown]. *)

From Stdlib Require Import QArith Qround Qabs Ascii String Lqa.
From stdpp Require Import gmap strings pretty list relations.

#[local] Set Warnings "-clear-no-such-hyp".

Local Open Scope string_scope.

(** ** JavaScript numbers and dates *)

Module JS.

Inductive number : Type :=
  | NaN
  | PosInfinity
  | NegInfinity
  | Fin (q : Q).

Definition num (z : Z) : number := Fin (inject_Z z).

Definition sgn (q : Q) : Z := Z.sgn (Qnum q).

Definition is_zero (q : Q) : bool := (Qnum q =? 0)%Z.

Definition isNaN (a : number) : bool :=
  match a with NaN => true | _ => false end.

Definition isFinite (a : number) : bool :=
  match a with Fin _ => true | _ => false end.

Definition neg (a : number) : number :=
  match a with
  | NaN => NaN
  | PosInfinity => NegInfinity
  | NegInfinity => PosInfinity
  | Fin q => Fin (Qred (- q))
  end.

(** [a + b] *)
Definition add (a b : number) : number :=
  match a, b with
  | NaN, _ | _, NaN => NaN
  | PosInfinity, NegInfinity | NegInfinity, PosInfinity => NaN
  | PosInfinity, _ | _, PosInfinity => PosInfinity
  | NegInfinity, _ | _, NegInfinity => NegInfinity
  | Fin x, Fin y => Fin (Qred (x + y))
  end.

(** [a - b] *)
Definition sub (a b : number) : number := add a (neg b).

(** The infinity that a non-zero sign selects; a zero sign gives NaN. *)
Definition signed_inf (s : Z) : number :=
  match s with
  | Z0 => NaN
  | Zpos _ => PosInfinity
  | Zneg _ => NegInfinity
  end.

(** [a * b] *)
Definition mul (a b : number) : number :=
  match a, b with
  | NaN, _ | _, NaN => NaN
  | Fin x, Fin y => Fin (Qred (x * y))
  | Fin x, PosInfinity | PosInfinity, Fin x => signed_inf (sgn x)
  | Fin x, NegInfinity | NegInfinity, Fin x => signed_inf (- sgn x)
  | PosInfinity, PosInfinity | NegInfinity, NegInfinity => PosInfinity
  | PosInfinity, NegInfinity | NegInfinity, PosInfinity => NegInfinity
  end.

(** [a / b]: a finite value over zero is an infinity of its sign, and
    [0 / 0] is NaN. *)
Definition div (a b : number) : number :=
  match a, b with
  | NaN, _ | _, NaN => NaN
  | Fin x, Fin y =>
      if is_zero y then signed_inf (sgn x) else Fin (Qred (x / y))
  | Fin _, (PosInfinity | NegInfinity) => Fin 0
  | PosInfinity, Fin y => if (sgn y <? 0)%Z then NegInfinity else PosInfinity
  | NegInfinity, Fin y => if (sgn y <? 0)%Z then PosInfinity else NegInfinity
  | (PosInfinity | NegInfinity), (PosInfinity | NegInfinity) => NaN
  end.

(** [a <= b]; false as soon as one side is NaN. *)
Definition le (a b : number) : bool :=
  match a, b with
  | NaN, _ | _, NaN => false
  | NegInfinity, _ => true
  | _, PosInfinity => true
  | Fin x, Fin y => Qle_bool x y
  | _, _ => false
  end.

(** [a < b] *)
Definition lt (a b : number) : bool :=
  match a, b with
  | NaN, _ | _, NaN => false
  | Fin x, Fin y => negb (Qle_bool y x)
  | PosInfinity, _ => false
  | _, NegInfinity => false
  | _, _ => true
  end.

(** [Math.max(a, b)] *)
Definition Math_max (a b : number) : number :=
  match a, b with
  | NaN, _ | _, NaN => NaN
  | _, _ => if le a b then b else a
  end.

(** [Math.round(a)]: the nearest integer, halves towards +Infinity. *)
Definition Math_round (a : number) : number :=
  match a with
  | Fin q => Fin (inject_Z (Qfloor (q + (1 # 2))))
  | _ => a
  end.

(** Truthiness of a number: everything but NaN and zero. *)
Definition truthy (a : number) : bool :=
  match a with
  | NaN => false
  | Fin q => negb (is_zero q)
  | _ => true
  end.

(** [a || b] on numbers *)
Definition or_num (a b : number) : number := if truthy a then a else b.

(** [s || d] on a form field that may be missing: [undefined] and the
    empty string are falsy. *)
Definition or_str (s : option string) (d : string) : string :=
  match s with
  | Some (String c r) => String c r
  | _ => d
  end.

(** A [Date] object: its time value in milliseconds, or an invalid date. *)
Inductive Date : Type :=
  | InvalidDate
  | DateAt (ms : Z).

Definition trunc (q : Q) : Z := Z.quot (Qnum q) (Z.pos (Qden q)).

(** [new Date(v)]: a value that is not finite, or beyond 8.64e15 ms, gives
    an invalid date. *)
Definition new_Date (v : number) : Date :=
  match v with
  | Fin q =>
      if Qle_bool (Qabs q) (inject_Z 8640000000000000)
      then DateAt (trunc q) else InvalidDate
  | _ => InvalidDate
  end.

End JS.

(** ** What the server takes from Node *)

Class Runtime := {
  dirname : string;                          (* __dirname *)
  path_join : string -> string -> string;
  path_extname : string -> string;
  path_basename : string -> option string -> string;
  toLowerCase : string -> string;
  formatLocaleTime : Z -> string;            (* of a valid date *)
  refuses_at_limit : bool      (* multer, on a file of exactly limits.fileSize *)
}.

(** [d.toLocaleTimeString()] *)
Definition toLocaleTimeString {rt : Runtime} (d : JS.Date) : string :=
  match d with
  | JS.InvalidDate => "Invalid Date"
  | JS.DateAt ms => formatLocaleTime ms
  end.

(** ** State shared by the two server variants *)

Record ConversionStats := {
  totalConverted : nat;
  successfulConversions : nat;
  failedConversions : nat
}.

(** A JSON value of a response body or of a broadcast. *)
Inductive JVal :=
  | JBool (b : bool)
  | JStr (s : string)
  | JNum (n : JS.number).

Definition Json := list (string * JVal).

(** What [io.emit] broadcasts: an object, or a bare string. *)
Inductive Payload :=
  | PObject (o : Json)
  | PText (s : string).

Record Response := {
  status : nat;
  body : Json
}.

(** A pending [setTimeout] callback of the retention code: after [delay]
    milliseconds it unlinks each of [unlinks] that still exists. *)
Record Timer := {
  delay : Z;
  unlinks : list string
}.

(** The upload that a multipart request carries in its [video] field. *)
Record Upload := {
  originalname : string;
  mimetype : string;
  bytes : Z
}.

(** [req.file] as multer leaves it. *)
Record ReqFile := {
  part : Upload;
  filename : string;
  path : string
}.

(** The text fields of the form. *)
Record Form := {
  inputFormat : option string;
  outputFormat : option string
}.

(** A progress notification of fluent-ffmpeg. *)
Record Progress := {
  frames : JS.number;
  currentFps : JS.number;
  timemark : string;
  percent : JS.number
}.

(** [interface ConversionProgress]: the object of a ['conversionProgress']
    broadcast, and the progress state of the page. *)
Record ConversionProgress := {
  cp_percent : JS.number;
  cp_time : string;
  cp_fps : JS.number;
  cp_remainingTime : JS.number;
  cp_eta : string
}.

Definition json_of_progress (d : ConversionProgress) : Json :=
  [("percent", JNum (cp_percent d)); ("time", JStr (cp_time d));
   ("fps", JNum (cp_fps d)); ("remainingTime", JNum (cp_remainingTime d));
   ("eta", JStr (cp_eta d))].

(** The command object built for ffmpeg. *)
Record FfmpegCommand := {
  input : string;
  video_codec : option string;
  options : list string;
  audio_codec : option string;
  size_spec : option string;
  format : option string;
  output_path : option string
}.

Definition ffmpeg (inputPath : string) : FfmpegCommand :=
  {| input := inputPath; video_codec := None; options := [];
     audio_codec := None; size_spec := None; format := None;
     output_path := None |}.

Definition videoCodec (c : string) (cmd : FfmpegCommand) : FfmpegCommand :=
  {| input := input cmd; video_codec := Some c; options := options cmd;
     audio_codec := audio_codec cmd; size_spec := size_spec cmd;
     format := format cmd; output_path := output_path cmd |}.

(** [addOptions], also called [outputOptions] *)
Definition addOptions (o : list string) (cmd : FfmpegCommand) : FfmpegCommand :=
  {| input := input cmd; video_codec := video_codec cmd;
     options := options cmd ++ o;
     audio_codec := audio_codec cmd; size_spec := size_spec cmd;
     format := format cmd; output_path := output_path cmd |}.

Definition audioCodec (c : string) (cmd : FfmpegCommand) : FfmpegCommand :=
  {| input := input cmd; video_codec := video_codec cmd; options := options cmd;
     audio_codec := Some c; size_spec := size_spec cmd;
     format := format cmd; output_path := output_path cmd |}.

(** The sizes that [size] of fluent-ffmpeg takes: a text in which one of
    [/([0-9]+)x([0-9]+)/], [/([0-9]+)x\?/], [/\?x([0-9]+)/] and
    [/\b([0-9]{1,3})%/] finds a match. *)
Definition is_digit (c : ascii) : bool :=
  let n := nat_of_ascii c in (48 <=? n)%nat && (n <=? 57)%nat.

Definition is_word (c : ascii) : bool :=
  let n := nat_of_ascii c in
  is_digit c || ((65 <=? n)%nat && (n <=? 90)%nat)
  || ((97 <=? n)%nat && (n <=? 122)%nat) || (n =? 95)%nat.

(** Three characters in a row that satisfy [p1], [p2] and [p3]. *)
Fixpoint window3 (p1 p2 p3 : ascii -> bool) (s : string) : bool :=
  match s with
  | String a t =>
      match t with
      | String b (String c _) => (p1 a && p2 b && p3 c) || window3 p1 p2 p3 t
      | _ => false
      end
  | EmptyString => false
  end.

(** One to three digits and a percent sign, at the start of the text. *)
Definition percent_here (s : string) : bool :=
  match s with
  | String a (String b t) =>
      is_digit a
      && (Ascii.eqb b "%"
          || (is_digit b
              && match t with
                 | String c t' =>
                     Ascii.eqb c "%"
                     || (is_digit c
                         && match t' with
                            | String d _ => Ascii.eqb d "%"
                            | EmptyString => false
                            end)
                 | EmptyString => false
                 end))
  | _ => false
  end.

(** [/\b([0-9]{1,3})%/]; [prev_word] tells whether the character before the
    text is a word character. *)
Fixpoint percentRatio (prev_word : bool) (s : string) : bool :=
  match s with
  | EmptyString => false
  | String a t =>
      (negb prev_word && percent_here s) || percentRatio (is_word a) t
  end.

Definition size_accepted (sz : string) : bool :=
  percentRatio false sz
  || window3 is_digit (Ascii.eqb "x") is_digit sz
  || window3 is_digit (Ascii.eqb "x") (Ascii.eqb "?") sz
  || window3 (Ascii.eqb "?") (Ascii.eqb "x") is_digit sz.

(** [size(sz)]: the command with the size set, or the message of the error
    that is thrown. *)
Definition setSize (sz : string) (cmd : FfmpegCommand)
  : string + FfmpegCommand :=
  if size_accepted sz then
    inr {| input := input cmd; video_codec := video_codec cmd;
           options := options cmd; audio_codec := audio_codec cmd;
           size_spec := Some sz; format := format cmd;
           output_path := output_path cmd |}
  else inl ("Invalid size specified: " +:+ sz).

Definition toFormat (f : string) (cmd : FfmpegCommand) : FfmpegCommand :=
  {| input := input cmd; video_codec := video_codec cmd; options := options cmd;
     audio_codec := audio_codec cmd; size_spec := size_spec cmd;
     format := Some f; output_path := output_path cmd |}.

Definition output (p : string) (cmd : FfmpegCommand) : FfmpegCommand :=
  {| input := input cmd; video_codec := video_codec cmd; options := options cmd;
     audio_codec := audio_codec cmd; size_spec := size_spec cmd;
     format := format cmd; output_path := Some p |}.

(** The process state, for a type [J] of started jobs (a command together
    with what its listeners close over).  [responses] and [jobs] are keyed
    by request: requests are numbered in their order of arrival and
    [next_request] is the number of the next one.  [console] keeps what
    the first server writes with [console.log], [thrown] the codes of the
    exceptions that left a listener uncaught, at each of which Node ends
    the process unless told otherwise. *)
Record State {J : Type} := {
  conversionStats : ConversionStats;
  files : gset string;
  timers : list Timer;
  emitted : list (string * Payload);
  console : list string;
  thrown : list string;
  responses : gmap nat Response;
  jobs : gmap nat J;
  next_request : nat
}.
Arguments State : clear implicits.

Section StateOps.
Context {J : Type}.
Implicit Type s : State J.

Definition initial : State J :=
  {| conversionStats :=
       {| totalConverted := 0; successfulConversions := 0;
          failedConversions := 0 |};
     files := ∅; timers := []; emitted := []; console := []; thrown := [];
     responses := ∅; jobs := ∅; next_request := 0 |}.

Definition set_stats (c : ConversionStats) s : State J :=
  {| conversionStats := c; files := files s; timers := timers s;
     emitted := emitted s; console := console s; thrown := thrown s;
     responses := responses s; jobs := jobs s;
     next_request := next_request s |}.

Definition set_files (f : gset string) s : State J :=
  {| conversionStats := conversionStats s; files := f; timers := timers s;
     emitted := emitted s; console := console s; thrown := thrown s;
     responses := responses s; jobs := jobs s;
     next_request := next_request s |}.

Definition set_timers (t : list Timer) s : State J :=
  {| conversionStats := conversionStats s; files := files s; timers := t;
     emitted := emitted s; console := console s; thrown := thrown s;
     responses := responses s; jobs := jobs s;
     next_request := next_request s |}.

(** [conversionStats.totalConverted++; conversionStats.successfulConversions++] *)
Definition count_success s : State J :=
  set_stats
    {| totalConverted := S (totalConverted (conversionStats s));
       successfulConversions := S (successfulConversions (conversionStats s));
       failedConversions := failedConversions (conversionStats s) |} s.

(** [conversionStats.totalConverted++; conversionStats.failedConversions++] *)
Definition count_failure s : State J :=
  set_stats
    {| totalConverted := S (totalConverted (conversionStats s));
       successfulConversions := successfulConversions (conversionStats s);
       failedConversions := S (failedConversions (conversionStats s)) |} s.

(** The disk storage writes the accepted upload. *)
Definition write_file (p : string) s : State J := set_files ({[p]} ∪ files s) s.

(** [setTimeout(callback, delay)] *)
Definition setTimeout (t : Timer) s : State J := set_timers (timers s ++ [t]) s.

(** [io.emit(event, payload)] *)
Definition io_emit (event : string) (payload : Payload) s : State J :=
  {| conversionStats := conversionStats s; files := files s; timers := timers s;
     emitted := emitted s ++ [(event, payload)]; console := console s;
     thrown := thrown s; responses := responses s; jobs := jobs s;
     next_request := next_request s |}.

(** [console.log(line)] *)
Definition console_log (line : string) s : State J :=
  {| conversionStats := conversionStats s; files := files s; timers := timers s;
     emitted := emitted s; console := console s ++ [line];
     thrown := thrown s; responses := responses s; jobs := jobs s;
     next_request := next_request s |}.

(** [res.status(status).json(body)] on the response of request [rid].  A
    response is sent once: on a response already sent the call throws
    [ERR_HTTP_HEADERS_SENT], the response stays as it was sent, and what
    the caller did before the call stays done. *)
Definition res_json (rid : nat) (r : Response) s : State J :=
  {| conversionStats := conversionStats s; files := files s; timers := timers s;
     emitted := emitted s; console := console s;
     thrown := match responses s !! rid with
               | Some _ => thrown s ++ ["ERR_HTTP_HEADERS_SENT"]
               | None => thrown s
               end;
     responses := match responses s !! rid with
                  | Some _ => responses s
                  | None => <[rid := r]> (responses s)
                  end;
     jobs := jobs s; next_request := next_request s |}.

(** [.run()] / [.save()]: the command is handed to ffmpeg, its listeners
    registered. *)
Definition run (rid : nat) (j : J) s : State J :=
  {| conversionStats := conversionStats s; files := files s; timers := timers s;
     emitted := emitted s; console := console s; thrown := thrown s;
     responses := responses s;
     jobs := <[rid := j]> (jobs s); next_request := next_request s |}.

(** A request arrives and gets its number. *)
Definition accept s : State J :=
  {| conversionStats := conversionStats s; files := files s; timers := timers s;
     emitted := emitted s; console := console s; thrown := thrown s;
     responses := responses s;
     jobs := jobs s; next_request := S (next_request s) |}.

(** The [i]-th pending timer fires and no [unlinkSync] fails: each of its
    paths that exists is unlinked. *)
Definition fire (i : nat) s : State J :=
  match timers s !! i with
  | Some t =>
      set_files (files s ∖ list_to_set (unlinks t)) (set_timers (delete i (timers s)) s)
  | None => s
  end.

(** Whether the process is still there: no exception was left uncaught. *)
Definition alive s : bool :=
  match thrown s with
  | [] => true
  | _ :: _ => false
  end.

(** Express answers an error of a middleware, or one thrown by the handler
    of the route, with its error page, status 500. *)
Definition res_error (rid : nat) (message : string) s : State J :=
  res_json rid {| status := 500; body := [("message", JStr message)] |} s.

End StateOps.

(** ** The conversion server, [backend/server.js]

    The upload filter and storage, the handler of [POST /convert] and the
    listeners it would register on the ffmpeg command.  The handler asks
    the command for the size [?x?] before it registers them and before it
    runs the command; fluent-ffmpeg throws on that size. *)

Module Server.

(** What the listeners of a started command close over. *)
Record Job := {
  inputPath : string;
  outputPath : string;
  command : FfmpegCommand
}.

(** What handling one upload reads from the clock and from [Math.random]:
    [now] is [Date.now()], [random] is [Math.round(Math.random() * 1E9)]. *)
Record Env := {
  now : Z;
  random : Z
}.

Section WithRuntime.
Context {rt : Runtime}.

Definition uploadDir : string := path_join dirname "uploads".
Definition outputDir : string := path_join dirname "output".

(** [storage.filename] *)
Definition storage_filename (env : Env) (file : Upload) : string :=
  let uniqueSuffix := pretty (now env) +:+ "-" +:+ pretty (random env) in
  let fileExtension := path_extname (originalname file) in
  uniqueSuffix +:+ fileExtension.

Definition supportedFormats : list string :=
  [".mp4"; ".mkv"; ".mov"; ".avi"; ".flv"; ".wmv"; ".ivf"].

(** [fileFilter]: the callback gets an error ([inl]) or the decision to
    keep the file ([inr]). *)
Definition fileFilter (file : Upload) : string + bool :=
  let fileExt := toLowerCase (path_extname (originalname file)) in
  if bool_decide (fileExt ∈ supportedFormats) then inr true
  else inl ("不支持的文件格式: " +:+ fileExt +:+ "。支持的格式: "
            +:+ String.concat ", " supportedFormats).

(** [limits.fileSize] *)
Definition fileSize : Z := 1024 * 1024 * 500.

(** [upload.single('video')]: multer asks [fileFilter] first and hands the
    file to the storage only when it is kept; a file over the size limit is
    an error and its partial copy is removed, and so is a file of exactly
    the limit when multer [refuses_at_limit].  The result is an error for
    Express, or [req.file]. *)
Definition upload_single (env : Env) (video : option Upload) (s : State Job)
  : (string + option ReqFile) * State Job :=
  match video with
  | None => (inr None, s)
  | Some file =>
      match fileFilter file with
      | inl err => (inl err, s)
      | inr false => (inr None, s)
      | inr true =>
          if (fileSize <? bytes file)%Z
             || (refuses_at_limit && (bytes file =? fileSize)%Z)
          then (inl "File too large", s)
          else
            let name := storage_filename env file in
            let p := path_join uploadDir name in
            (inr (Some {| part := file; filename := name; path := p |}),
             write_file p s)
      end
  end.

(** The handler of [POST /convert], for the request numbered [rid].  What
    [size] throws leaves the handler, and Express answers it. *)
Definition convert (rid : nat) (file : option ReqFile) (form : Form)
    (s : State Job) : State Job :=
  match file with
  | None =>
      res_json rid
        {| status := 400;
           body := [("success", JBool false); ("error", JStr "没有上传文件")] |} s
  | Some f =>
      let inputPath := path f in
      let inputFormat := JS.or_str (inputFormat form) "mp4" in
      let outputFormat := JS.or_str (outputFormat form) "ivf" in
      let fileName := path_basename inputPath (Some (path_extname inputPath)) in
      let outputPath := path_join outputDir (fileName +:+ "." +:+ outputFormat) in
      let s := console_log ("开始转换: " +:+ inputPath +:+ " -> " +:+ outputPath) s in
      let s := console_log ("输入格式: " +:+ inputFormat +:+ ", 输出格式: "
                            +:+ outputFormat) s in
      let ffmpegCommand := ffmpeg inputPath in
      let ffmpegCommand :=
        if String.eqb outputFormat "ivf" then
          addOptions ["-b:v 1M"; "-quality good"; "-cpu-used 0"; "-deadline best"]
            (videoCodec "libvpx" ffmpegCommand)
        else if String.eqb outputFormat "mp4" then
          addOptions ["-preset slow"; "-crf 22"; "-pix_fmt yuv420p"]
            (videoCodec "libx264" ffmpegCommand)
        else ffmpegCommand in
      let ffmpegCommand := audioCodec "aac" ffmpegCommand in
      match setSize "?x?" ffmpegCommand with
      | inl message => res_error rid message s
      | inr ffmpegCommand =>
          let ffmpegCommand := output outputPath ffmpegCommand in
          run rid {| inputPath := inputPath; outputPath := outputPath;
                     command := ffmpegCommand |} s
      end
  end.

(** The route: the request gets its number, multer runs, and either Express
    answers multer's error or the handler runs. *)
Definition post (env : Env) (video : option Upload) (form : Form)
    (s : State Job) : State Job :=
  let rid := next_request s in
  match upload_single env video (accept s) with
  | (inl err, s') => res_error rid err s'
  | (inr file, s') => convert rid file form s'
  end.

(** The ['progress'] listener; [now] is its [Date.now()]. *)
Definition on_progress (now : Z) (progress : Progress) (s : State Job)
  : State Job :=
  let left := JS.sub (JS.num 100) (percent progress) in
  let per := JS.div (frames progress) (currentFps progress) in
  io_emit "progress"
    (PObject
       [("percent", JNum (percent progress));
        ("time", JStr (timemark progress));
        ("fps", JNum (JS.or_num (currentFps progress) (JS.num 0)));
        ("remaining",
         JNum (if JS.lt (percent progress) (JS.num 100)
               then JS.div (JS.mul left per) (JS.num 100)
               else JS.num 0));
        ("eta",
         JStr (toLocaleTimeString
                 (JS.new_Date
                    (JS.add (JS.num now)
                       (JS.div (JS.mul (JS.mul left per) (JS.num 1000))
                          (JS.num 100))))))]) s.

(** The timer that the ['end'] listener sets: ten minutes, then both files. *)
Definition cleanup (j : Job) : Timer :=
  {| delay := 10 * 60 * 1000; unlinks := [inputPath j; outputPath j] |}.

(** The ['end'] listener of the command of request [rid]. *)
Definition on_end (rid : nat) (j : Job) (s : State Job) : State Job :=
  let s := console_log ("转换完成: " +:+ outputPath j) s in
  let s := count_success s in
  let s := setTimeout (cleanup j) s in
  res_json rid
    {| status := 200;
       body := [("success", JBool true);
                ("filename", JStr (path_basename (outputPath j) None))] |} s.

(** The ['error'] listener of the command of request [rid]; [message] is
    [err.message]. *)
Definition on_error (rid : nat) (j : Job) (message : string) (s : State Job)
  : State Job :=
  let s := count_failure s in
  let s := io_emit "error" (PText ("视频转换失败: " +:+ message)) s in
  res_json rid
    {| status := 500;
       body := [("success", JBool false);
                ("error", JStr ("视频转换失败: " +:+ message))] |} s.

(** What can happen to the process. *)
Inductive Event :=
  | PostConvert (env : Env) (video : option Upload) (form : Form)
  | FfmpegProgress (rid : nat) (now : Z) (progress : Progress)
  | FfmpegEnd (rid : nat)
  | FfmpegError (rid : nat) (message : string)
  | TimerFires (i : nat).

(** An event of ffmpeg reaches the listeners of the command it is about;
    nothing happens to a process that an uncaught exception has ended. *)
Definition handle (s : State Job) (e : Event) : State Job :=
  if alive s then
    match e with
    | PostConvert env video form => post env video form s
    | FfmpegProgress rid now progress =>
        match jobs s !! rid with
        | Some _ => on_progress now progress s
        | None => s
        end
    | FfmpegEnd rid =>
        match jobs s !! rid with
        | Some j => on_end rid j s
        | None => s
        end
    | FfmpegError rid message =>
        match jobs s !! rid with
        | Some j => on_error rid j message s
        | None => s
        end
    | TimerFires i => fire i s
    end
  else s.

Definition handle_all (s : State Job) (es : list Event) : State Job :=
  fold_left handle es s.

End WithRuntime.
End Server.

(** ** The second server in the repository

    It reads neither form field, filters no upload, always produces IVF,
    and broadcasts ['conversionStart'], ['conversionProgress'],
    ['conversionComplete'] and ['conversionError'], the events the page
    listens to.  It asks for no size, and its commands run.  Its console
    output and its [ffprobe] call, whose result nothing reads, are left
    out. *)

Module Server2.

Record Job := {
  inputPath : string;
  outputFileName : string;
  outputPath : string;
  startTime : Z;
  command : FfmpegCommand
}.

(** What handling one upload reads from outside: the random name multer
    gives the stored file, and the two [Date.now()] of the handler. *)
Record Env := {
  tmpname : string;
  now_name : Z;
  now_start : Z
}.

Section WithRuntime.
Context {rt : Runtime}.

Definition outputDir : string := path_join dirname "output".

(** [upload.single('video')] of [multer({ dest: 'uploads/' })]: every file
    is stored, under a random name. *)
Definition upload_single (env : Env) (video : option Upload) (s : State Job)
  : (string + option ReqFile) * State Job :=
  match video with
  | None => (inr None, s)
  | Some file =>
      let p := path_join "uploads/" (tmpname env) in
      (inr (Some {| part := file; filename := tmpname env; path := p |}),
       write_file p s)
  end.

(** The handler of [POST /convert]. *)
Definition convert (rid : nat) (env : Env) (file : option ReqFile)
    (s : State Job) : State Job :=
  match file with
  | None =>
      res_json rid {| status := 400; body := [("error", JStr "没有上传文件")] |} s
  | Some f =>
      let inputPath := path f in
      let outputFileName := pretty (now_name env) +:+ ".ivf" in
      let outputPath := path_join outputDir outputFileName in
      let startTime := now_start env in
      let cmd :=
        toFormat "ivf"
          (addOptions ["-c:v libvpx"; "-crf 10"; "-b:v 2M"; "-c:a libvorbis"]
             (ffmpeg inputPath)) in
      run rid {| inputPath := inputPath; outputFileName := outputFileName;
                 outputPath := outputPath; startTime := startTime;
                 command := output outputPath cmd |} s
  end.

Definition post (env : Env) (video : option Upload) (s : State Job)
  : State Job :=
  let rid := next_request s in
  match upload_single env video (accept s) with
  | (inl err, s') => res_error rid err s'
  | (inr file, s') => convert rid env file s'
  end.

(** The ['start'] listener. *)
Definition on_start (s : State Job) : State Job :=
  io_emit "conversionStart" (PObject [("status", JStr "started")]) s.

(** [progressData] of the ['progress'] listener; [now] and [now'] are its
    two [Date.now()]. *)
Definition progressData (j : Job) (now now' : Z) (progress : Progress)
  : ConversionProgress :=
  let percent :=
    JS.div (JS.Math_round (JS.mul (percent progress) (JS.num 100))) (JS.num 100) in
  let time := timemark progress in
  let fps := JS.or_num (JS.Math_round (currentFps progress)) (JS.num 0) in
  let elapsedTime :=
    JS.div (JS.sub (JS.num now) (JS.num (startTime j))) (JS.num 1000) in
  let estimatedTotalTime := JS.div elapsedTime (JS.div percent (JS.num 100)) in
  let remainingTime :=
    JS.Math_max (JS.num 0) (JS.sub estimatedTotalTime elapsedTime) in
  let etaTime :=
    JS.new_Date (JS.add (JS.num now') (JS.mul remainingTime (JS.num 1000))) in
  {| cp_percent := JS.or_num percent (JS.num 0);
     cp_time := JS.or_str (Some time) "00:00:00";
     cp_fps := fps;
     cp_remainingTime := JS.Math_round remainingTime;
     cp_eta := toLocaleTimeString etaTime |}.

(** What is broadcast for a run of notifications of the command [j], each
    with its two clock readings. *)
Definition broadcasts (j : Job) (ticks : list (Z * Z * Progress))
  : list ConversionProgress :=
  map (fun t => progressData j t.1.1 t.1.2 t.2) ticks.

(** The ['progress'] listener. *)
Definition on_progress (j : Job) (now now' : Z) (progress : Progress)
    (s : State Job) : State Job :=
  io_emit "conversionProgress"
    (PObject (json_of_progress (progressData j now now' progress))) s.

(** [cleanupFiles(filePath)] *)
Definition cleanupFiles (filePath : string) (s : State Job) : State Job :=
  setTimeout {| delay := 10 * 60 * 1000; unlinks := [filePath] |} s.

(** The ['end'] listener. *)
Definition on_end (rid : nat) (j : Job) (s : State Job) : State Job :=
  let s := count_success s in
  let s := io_emit "conversionComplete" (PObject [("status", JStr "completed")]) s in
  let s := cleanupFiles (inputPath j) s in
  let s := cleanupFiles (outputPath j) s in
  res_json rid
    {| status := 200;
       body := [("success", JBool true);
                ("outputFile", JStr (outputFileName j))] |} s.

(** The ['error'] listener. *)
Definition on_error (rid : nat) (j : Job) (s : State Job) : State Job :=
  let s := count_failure s in
  let s := io_emit "conversionError" (PObject [("error", JStr "转换失败")]) s in
  res_json rid {| status := 500; body := [("error", JStr "转换失败")] |} s.

(** The route as a request reaches it: the text fields of the form come
    with the request, and nothing reads them. *)
Definition route (env : Env) (video : option Upload) (form : Form)
    (s : State Job) : State Job :=
  post env video s.

(** What can happen to the process. *)
Inductive Event :=
  | PostConvert (env : Env) (video : option Upload) (form : Form)
  | FfmpegStart (rid : nat)
  | FfmpegProgress (rid : nat) (now now' : Z) (progress : Progress)
  | FfmpegEnd (rid : nat)
  | FfmpegError (rid : nat)
  | TimerFires (i : nat).

(** An event of ffmpeg reaches the listeners of the command it is about;
    nothing happens to a process that an uncaught exception has ended. *)
Definition handle (s : State Job) (e : Event) : State Job :=
  if alive s then
    match e with
    | PostConvert env video form => route env video form s
    | FfmpegStart rid =>
        match jobs s !! rid with
        | Some _ => on_start s
        | None => s
        end
    | FfmpegProgress rid now now' progress =>
        match jobs s !! rid with
        | Some j => on_progress j now now' progress s
        | None => s
        end
    | FfmpegEnd rid =>
        match jobs s !! rid with
        | Some j => on_end rid j s
        | None => s
        end
    | FfmpegError rid =>
        match jobs s !! rid with
        | Some j => on_error rid j s
        | None => s
        end
    | TimerFires i => fire i s
    end
  else s.

Definition handle_all (s : State Job) (es : list Event) : State Job :=
  fold_left handle es s.

(** The ['percent'] values broadcast so far, oldest first. *)
Definition published_percent (s : State Job) : list JS.number :=
  omap (fun ep =>
          match ep with
          | ("conversionProgress", PObject (("percent", JNum p) :: _)) => Some p
          | _ => None
          end) (emitted s).

(** What the ['end'] listener answers for the job [j]. *)
Definition ok_response (j : Job) : Response :=
  {| status := 200;
     body := [("success", JBool true); ("outputFile", JStr (outputFileName j))] |}.

(** ffmpeg as the server may rely on it: a command that was started
    notifies its start and its progress and then ends or fails, once.  A
    world is the process state together with the commands ffmpeg is running
    and those it has finished. *)
Record World := {
  server : State Job;
  running : gset nat;
  succeeded : gset nat;
  failed : gset nat
}.

Definition boot : World :=
  {| server := initial; running := ∅; succeeded := ∅; failed := ∅ |}.

(** The request that a [route] on [s] numbers, if it started a command. *)
Definition started (s s' : State Job) : gset nat :=
  match jobs s' !! next_request s with
  | Some _ => {[next_request s]}
  | None => ∅
  end.

Inductive step : World -> World -> Prop :=
  | step_post w env video form :
      let s' := route env video form (server w) in
      step w {| server := s';
                running := started (server w) s' ∪ running w;
                succeeded := succeeded w; failed := failed w |}
  | step_start w rid j :
      rid ∈ running w -> jobs (server w) !! rid = Some j ->
      step w {| server := on_start (server w);
                running := running w;
                succeeded := succeeded w; failed := failed w |}
  | step_progress w rid j now now' progress :
      rid ∈ running w -> jobs (server w) !! rid = Some j ->
      step w {| server := on_progress j now now' progress (server w);
                running := running w;
                succeeded := succeeded w; failed := failed w |}
  | step_end w rid j :
      rid ∈ running w -> jobs (server w) !! rid = Some j ->
      step w {| server := on_end rid j (server w);
                running := running w ∖ {[rid]};
                succeeded := {[rid]} ∪ succeeded w; failed := failed w |}
  | step_error w rid j :
      rid ∈ running w -> jobs (server w) !! rid = Some j ->
      step w {| server := on_error rid j (server w);
                running := running w ∖ {[rid]};
                succeeded := succeeded w; failed := {[rid]} ∪ failed w |}
  | step_timer w i :
      step w {| server := fire i (server w); running := running w;
                succeeded := succeeded w; failed := failed w |}.

Definition reachable (w : World) : Prop := rtc step boot w.

(** The jobs that have reached a terminal phase. *)
Definition terminal (w : World) : gset nat := succeeded w ∪ failed w.

End WithRuntime.
End Server2.

(** ** The page, [frontend/src/App.tsx]: its progress state *)

Module App.

(** [setProgress] of the ['conversionProgress'] listener: the broadcast
    object, with its percent mapped onto the upper half of the bar and kept
    from going back.  Numbers are taken to arrive as they were sent. *)
Definition on_conversionProgress (prev data : ConversionProgress)
  : ConversionProgress :=
  let mappedPercent :=
    JS.add (JS.num 50) (JS.mul (cp_percent data) (JS.Fin (1 # 2))) in
  {| cp_percent := JS.Math_max (cp_percent prev) mappedPercent;
     cp_time := cp_time data;
     cp_fps := cp_fps data;
     cp_remainingTime := cp_remainingTime data;
     cp_eta := cp_eta data |}.

(** The states the page goes through on a run of broadcasts, oldest first. *)
Fixpoint shown (prev : ConversionProgress) (ds : list ConversionProgress)
  : list ConversionProgress :=
  match ds with
  | [] => []
  | d :: ds' =>
      let next := on_conversionProgress prev d in
      next :: shown next ds'
  end.

End App.

(** ** Sequences of percent values *)

(** No value is lower than the one before it. *)
Fixpoint non_decreasing (l : list JS.number) : bool :=
  match l with
  | a :: t =>
      match t with
      | b :: _ => JS.le a b && non_decreasing t
      | [] => true
      end
  | [] => true
  end.

(** ** A runtime to run the model on: POSIX paths, ASCII case, a 24-hour
    UTC clock *)

Module Posix.

(** What follows the last [c] of [s], if [c] occurs. *)
Fixpoint after_last (c : ascii) (s : string) : option string :=
  match s with
  | EmptyString => None
  | String x t =>
      match after_last c t with
      | Some r => Some r
      | None => if Ascii.eqb x c then Some t else None
      end
  end.

Definition last_part (p : string) : string :=
  match after_last "/" p with Some r => r | None => p end.

Definition extname (p : string) : string :=
  let b := last_part p in
  match after_last "." b with
  | None => ""
  | Some e =>
      if (String.length e + 1 =? String.length b)%nat || String.eqb b ".."
      then "" else "." +:+ e
  end.

Definition basename (p : string) (ext : option string) : string :=
  let b := last_part p in
  match ext with
  | None => b
  | Some e =>
      let n := (String.length b - String.length e)%nat in
      if String.eqb (substring n (String.length e) b) e && negb (String.eqb b e)
      then substring 0 n b else b
  end.

(** The parts of a path between its slashes. *)
Fixpoint split_slash (s : string) : list string :=
  match s with
  | EmptyString => [EmptyString]
  | String c t =>
      if Ascii.eqb c "/" then EmptyString :: split_slash t
      else match split_slash t with
           | h :: r => String c h :: r
           | [] => [String c EmptyString]
           end
  end.

(** One more part for the parts kept so far, the last one first. *)
Definition push_part (absolute : bool) (kept : list string) (part : string)
  : list string :=
  if String.eqb part "" || String.eqb part "." then kept
  else if String.eqb part ".." then
    match kept with
    | top :: rest => if String.eqb top ".." then part :: kept else rest
    | [] => if absolute then [] else [part]
    end
  else part :: kept.

(** [path.normalize] *)
Definition normalize (p : string) : string :=
  let absolute := match p with String "/" _ => true | _ => false end in
  let trailing := match after_last "/" p with Some "" => true | _ => false end in
  let body :=
    String.concat "/" (rev (fold_left (push_part absolute) (split_slash p) [])) in
  let body := if String.eqb body "" && negb absolute then "." else body in
  let body := if negb (String.eqb body "") && trailing then body +:+ "/" else body in
  if absolute then "/" +:+ body else body.

(** [path.join] of two parts *)
Definition join (a b : string) : string :=
  let joined :=
    if String.eqb a "" then b
    else if String.eqb b "" then a else a +:+ "/" +:+ b in
  if String.eqb joined "" then "." else normalize joined.

Definition lower (c : ascii) : ascii :=
  let n := nat_of_ascii c in
  if (65 <=? n)%nat && (n <=? 90)%nat then ascii_of_nat (n + 32) else c.

Fixpoint lowercase (s : string) : string :=
  match s with
  | EmptyString => EmptyString
  | String c t => String (lower c) (lowercase t)
  end.

Definition two (n : Z) : string :=
  if (n <? 10)%Z then "0" +:+ pretty n else pretty n.

Definition clock (ms : Z) : string :=
  let s := ((ms / 1000) mod 86400)%Z in
  two (s / 3600) +:+ ":" +:+ two (s mod 3600 / 60) +:+ ":" +:+ two (s mod 60).

End Posix.

Definition posix : Runtime :=
  {| dirname := "/srv/backend";
     path_join := Posix.join;
     path_extname := Posix.extname;
     path_basename := Posix.basename;
     toLowerCase := Posix.lowercase;
     formatLocaleTime := Posix.clock;
     refuses_at_limit := true |}.


(** ** The download routes, and the sweep of the first server *)

Module Download.
Section WithRuntime.
Context {rt : Runtime}.

(** What [GET /download/:filename] does: it sends a file or answers. *)
Inductive Served :=
  | SendFile (filePath : string)
  | Answer (r : Response).

(** The handler of [GET /download/:filename]; [files s] is what exists. *)
Definition download (filename : string) (s : State Server.Job) : Served :=
  let filePath := path_join Server.outputDir filename in
  if bool_decide (filePath ∈ files s) then SendFile filePath
  else Answer {| status := 404;
                 body := [("success", JBool false);
                          ("error", JStr "文件不存在或已被删除")] |}.




End WithRuntime.
End Download.

Module Sweep.

(** [maxAge] of [cleanupFiles], and the period of its [setInterval]. *)
Definition maxAge : Z := 30 * 60 * 1000.
Definition period : Z := 60 * 60 * 1000.

(** What can go wrong while a directory is swept; each failure is logged
    and the sweep goes on: [readdir] fails for the directory, [stat] or
    [unlink] fails for some of its files. *)
Record Faults := {
  readdir_fails : bool;
  stat_fails : gset string;
  unlink_fails : gset string
}.

Definition no_faults : Faults :=
  {| readdir_fails := false; stat_fails := ∅; unlink_fails := ∅ |}.

(** [now - stats.mtime.getTime() > maxAge] *)
Definition expired (now mtime : Z) : bool := (maxAge <? now - mtime)%Z.

(** Whether the sweep unlinks the file [name], last modified at [mtime]. *)
Definition unlinked (now : Z) (fl : Faults) (name : string) (mtime : Z) : bool :=
  bool_decide (name ∉ stat_fails fl) && expired now mtime
  && bool_decide (name ∉ unlink_fails fl).

(** One directory swept: it is a map from the names in it to their
    modification times, in milliseconds. *)
Definition sweep_dir (now : Z) (fl : Faults) (dir : gmap string Z)
  : gmap string Z :=
  if readdir_fails fl then dir
  else filter (fun nm => unlinked now fl nm.1 nm.2 = false) dir.

(** The two directories of the server. *)
Record Disk := {
  uploads : gmap string Z;
  outputs : gmap string Z
}.

(** [cleanupFiles], with [now] its [Date.now()], on a disk that nothing
    else touches meanwhile. *)
Definition cleanupFiles (now : Z) (fu fo : Faults) (d : Disk) : Disk :=
  {| uploads := sweep_dir now fu (uploads d);
     outputs := sweep_dir now fo (outputs d) |}.

(** The time of the [k]-th run of the sweep of a server started at [t0],
    when the interval timer is on time. *)
Definition tick (t0 : Z) (k : Z) : Z := (t0 + k * period)%Z.

End Sweep.

(** ** What was broadcast *)

Module Wire.

(** How many broadcasts of the event [name] there were. *)
Definition count_event {J : Type} (name : string) (s : State J) : nat :=
  length (filter (fun ep => ep.1 = name) (emitted s)).

End Wire.

(** ** The rest of the page: its handlers and its formatting *)

Module Page.

Inductive ProgressStage :=
  | IDLE
  | UPLOADING
  | CONVERTING
  | COMPLETED
  | ERROR.

(** The state of [App] that the conversion touches. *)
Record Page := {
  converting : bool;
  error : string;
  progressStage : ProgressStage;
  progress : ConversionProgress;
  downloadUrl : string
}.

Definition set_percent (p : JS.number) (c : ConversionProgress)
  : ConversionProgress :=
  {| cp_percent := p; cp_time := cp_time c; cp_fps := cp_fps c;
     cp_remainingTime := cp_remainingTime c; cp_eta := cp_eta c |}.

(** [percentCompleted] of [onUploadProgress] *)
Definition percentCompleted (loaded total : JS.number) : JS.number :=
  JS.Math_round (JS.div (JS.mul loaded (JS.num 50)) total).

(** [onUploadProgress]: nothing happens without a total. *)
Definition onUploadProgress (loaded total : JS.number) (pg : Page) : Page :=
  if JS.truthy total then
    {| converting := converting pg; error := error pg;
       progressStage := progressStage pg;
       progress := set_percent (percentCompleted loaded total) (progress pg);
       downloadUrl := downloadUrl pg |}
  else pg.

(** The ['conversionStart'] listener *)
Definition on_conversionStart (pg : Page) : Page :=
  {| converting := true; error := ""; progressStage := CONVERTING;
     progress := set_percent (JS.num 50) (progress pg);
     downloadUrl := downloadUrl pg |}.

(** The ['conversionProgress'] listener *)
Definition on_conversionProgress (data : ConversionProgress) (pg : Page)
  : Page :=
  {| converting := converting pg; error := error pg;
     progressStage := CONVERTING;
     progress := App.on_conversionProgress (progress pg) data;
     downloadUrl := downloadUrl pg |}.

(** The ['conversionComplete'] listener *)
Definition on_conversionComplete (pg : Page) : Page :=
  {| converting := false; error := error pg; progressStage := COMPLETED;
     progress := set_percent (JS.num 100) (progress pg);
     downloadUrl := downloadUrl pg |}.

(** The ['conversionError'] listener *)
Definition on_conversionError (pg : Page) : Page :=
  {| converting := false; error := "转换过程中出现错误";
     progressStage := ERROR; progress := progress pg;
     downloadUrl := downloadUrl pg |}.

(** What the page hears while a file is converted. *)
Inductive Heard :=
  | UploadProgress (loaded total : JS.number)
  | ConversionStart
  | ConversionProgressed (data : ConversionProgress)
  | ConversionComplete
  | ConversionError.

Definition hear (pg : Page) (h : Heard) : Page :=
  match h with
  | UploadProgress loaded total => onUploadProgress loaded total pg
  | ConversionStart => on_conversionStart pg
  | ConversionProgressed data => on_conversionProgress data pg
  | ConversionComplete => on_conversionComplete pg
  | ConversionError => on_conversionError pg
  end.

(** [Math.floor] on a finite number *)
Definition floor (q : Q) : Z := Qfloor q.

(** [a % n] on finite numbers, [n] not zero: the sign is that of [a]. *)
Definition rem (a : Q) (n : Z) : Q :=
  (a - inject_Z (n * JS.trunc (a / inject_Z n)))%Q.

(** The hours, minutes and seconds of [formatTime]. *)
Definition hrs (seconds : Q) : Z := floor (seconds / inject_Z 3600).
Definition mins (seconds : Q) : Z := floor (rem seconds 3600 / inject_Z 60).
Definition secs (seconds : Q) : Z := floor (rem seconds 60).

(** [s.padStart(2, '0')] *)
Definition padStart2 (s : string) : string :=
  match String.length s with
  | 0 => "00"
  | 1 => "0" +:+ s
  | _ => s
  end.

(** [formatTime] *)
Definition formatTime (seconds : JS.number) : string :=
  match seconds with
  | JS.Fin q =>
      padStart2 (pretty (hrs q)) +:+ ":" +:+ padStart2 (pretty (mins q))
      +:+ ":" +:+ padStart2 (pretty (secs q))
  | _ => "00:00:00"
  end.

(** [INPUT_FORMATS], as value and extension *)
Definition INPUT_FORMATS : list (string * string) :=
  [("mp4", ".mp4"); ("mkv", ".mkv"); ("mov", ".mov"); ("avi", ".avi");
   ("flv", ".flv"); ("wmv", ".wmv"); ("ivf", ".ivf")].

(** [s.substring(1)] *)
Definition substring1 (s : string) : string :=
  match s with
  | EmptyString => EmptyString
  | String _ t => t
  end.

(** [name.split('.').pop()]: what follows the last dot, the whole name when
    it has none. *)
Definition last_segment (name : string) : string :=
  match Posix.after_last "." name with
  | Some r => r
  | None => name
  end.

(** The page after it has heard [hs], and the percent it showed after each. *)
Definition run (pg : Page) (hs : list Heard) : Page := fold_left hear hs pg.

Fixpoint trail (pg : Page) (hs : list Heard) : list JS.number :=
  match hs with
  | [] => []
  | h :: hs' =>
      cp_percent (progress (hear pg h)) :: trail (hear pg h) hs'
  end.

(** A finite number from [lo] to [hi]. *)
Definition within (lo hi : Z) (n : JS.number) : Prop :=
  exists q, n = JS.Fin q /\ (inject_Z lo <= q <= inject_Z hi)%Q.

(** What the page can expect to hear: an upload that has not sent more than
    there is to send, a conversion percent from 0 to 100. *)
Definition plausible (h : Heard) : Prop :=
  match h with
  | UploadProgress loaded total =>
      exists l t, loaded = JS.num l /\ total = JS.num t /\ (0 <= l <= t)%Z
  | ConversionProgressed data => within 0 100 (cp_percent data)
  | _ => True
  end.

Section WithRuntime.
Context {rt : Runtime}.

(** [extension] and [supportedFormat] of [handleFileChange] *)
Definition extension (name : string) : string :=
  JS.or_str (Some (toLowerCase (last_segment name))) "".

Definition supportedFormat (name : string) : option (string * string) :=
  List.find (fun fmt => String.eqb (substring1 fmt.2) (extension name))
    INPUT_FORMATS.

End WithRuntime.
End Page.

(** ** Text without a dash *)

Module Text.

(** No character of the text is a dash. *)
Fixpoint no_dash (s : string) : Prop :=
  match s with
  | EmptyString => True
  | String c t => c <> "-"%char /\ no_dash t
  end.

End Text.

(** ** Sample inputs *)

Module Sample.

Definition clip : Upload :=
  {| originalname := "clip.mp4"; mimetype := "video/mp4"; bytes := 1048576 |}.

(** A text file sent with a video MIME type. *)
Definition notes : Upload :=
  {| originalname := "notes.txt"; mimetype := "video/mp4"; bytes := 2048 |}.

Definition env : Server.Env :=
  {| Server.now := 1700000000000; Server.random := 42 |}.

Definition env2 : Server2.Env :=
  {| Server2.tmpname := "3f2a9c"; Server2.now_name := 1700000000000;
     Server2.now_start := 1700000000000 |}.

Definition no_fields : Form := {| inputFormat := None; outputFormat := None |}.

Definition to_webm : Form :=
  {| inputFormat := Some "mp4"; outputFormat := Some "webm" |}.

(** A notification ten seconds into the media, at [p] percent. *)
Definition at_percent (p : Z) : Progress :=
  {| frames := JS.num 250; currentFps := JS.num 25;
     timemark := "00:00:10.00"; percent := JS.num p |}.

(** The first notification of a run: nothing encoded yet. *)
Definition at_start : Progress :=
  {| frames := JS.num 0; currentFps := JS.num 0;
     timemark := "00:00:00.00"; percent := JS.num 0 |}.

(** The progress state of the page when a conversion is launched. *)
Definition launched : ConversionProgress :=
  {| cp_percent := JS.num 0; cp_time := "00:00:00"; cp_fps := JS.num 0;
     cp_remainingTime := JS.num 0; cp_eta := "12:00:00" |}.

(** The job of [clip] on the second server. *)
Definition job2 : Server2.Job :=
  {| Server2.inputPath := "uploads/3f2a9c";
     Server2.outputFileName := "1700000000000.ivf";
     Server2.outputPath := "/srv/backend/output/1700000000000.ivf";
     Server2.startTime := 1700000000000;
     Server2.command :=
       {| input := "uploads/3f2a9c"; video_codec := None;
          options := ["-c:v libvpx"; "-crf 10"; "-b:v 2M"; "-c:a libvorbis"];
          audio_codec := None; size_spec := None; format := Some "ivf";
          output_path := Some "/srv/backend/output/1700000000000.ivf" |} |}.

(** The second server after [clip] was posted with the output format
    [webm]. *)
Definition posted2 : State Server2.Job :=
  Server2.route (rt := posix) env2 (Some clip) to_webm initial.

(** The world in which [clip] was posted to the second server, and the one
    in which its command has then ended. *)
Definition posted_world : Server2.World :=
  {| Server2.server := posted2;
     Server2.running := Server2.started initial posted2 ∪ ∅;
     Server2.succeeded := ∅; Server2.failed := ∅ |}.

Definition ended_world : Server2.World :=
  {| Server2.server := Server2.on_end 0 job2 posted2;
     Server2.running := Server2.running posted_world ∖ {[0]};
     Server2.succeeded := {[0]} ∪ ∅; Server2.failed := ∅ |}.

(** What happens to the second server when [clip] is posted and ffmpeg
    reports 80 and then 60 percent. *)
Definition backwards : list Server2.Event :=
  [Server2.PostConvert env2 (Some clip) to_webm;
   Server2.FfmpegStart 0;
   Server2.FfmpegProgress 0 1700000010000 1700000010000 (at_percent 80);
   Server2.FfmpegProgress 0 1700000011000 1700000011000 (at_percent 60)].

End Sample.

(** ** More sample inputs *)

Module Sample2.

(** [clip], one byte over the size limit. *)
Definition huge : Upload :=
  {| originalname := "clip.mp4"; mimetype := "video/mp4";
     bytes := 524288001 |}.

(** The page when a conversion is launched. *)
Definition page : Page.Page :=
  {| Page.converting := true; Page.error := "";
     Page.progressStage := Page.UPLOADING;
     Page.progress := Sample.launched; Page.downloadUrl := "" |}.

(** A broadcast at [p] percent. *)
Definition sent (p : Z) : ConversionProgress :=
  {| cp_percent := JS.num p; cp_time := "00:00:10.00"; cp_fps := JS.num 25;
     cp_remainingTime := JS.num 3; cp_eta := "12:00:03" |}.

(** A disk with one upload, last modified at the given time. *)
Definition disk (mtime : Z) : Sweep.Disk :=
  {| Sweep.uploads := {["1700000000000-42.mp4" := mtime]};
     Sweep.outputs := ∅ |}.

End Sample2.

(** * Properties *)

(** ** Numbers *)

Section NumberFacts.
Import JS.

Lemma Qle_bool_refl (x : Q) : Qle_bool x x = true.
Proof. apply Qle_bool_iff. apply Qle_refl. Qed.

Lemma Math_max_not_NaN (a b : number) :
  isNaN a = false -> isNaN b = false -> isNaN (Math_max a b) = false.
Proof.
  intros Ha Hb. destruct a, b; simpl in *; try done.
  match goal with |- context [if ?c then _ else _] => destruct c end; done.
Qed.

(** [Math.max(a, b)] is not below [a]. *)
Lemma le_Math_max_l (a b : number) :
  isNaN a = false -> isNaN b = false -> le a (Math_max a b) = true.
Proof.
  intros Ha Hb. destruct a as [| | |x], b as [| | |y]; simpl in *; try done.
  - apply Qle_bool_refl.
  - destruct (Qle_bool x y) eqn:E; [done|]. apply Qle_bool_refl.
Qed.

(** [x || 0] is a number. *)
Lemma or_num_zero_not_NaN (a : number) : isNaN (or_num a (num 0)) = false.
Proof.
  destruct a as [| | |q]; try done.
  unfold or_num. simpl. by destruct (is_zero q).
Qed.

(** [50 + x * 0.5] is a number when [x] is. *)
Lemma mapped_not_NaN (x : number) :
  isNaN x = false -> isNaN (add (num 50) (mul x (Fin (1 # 2)))) = false.
Proof. by destruct x. Qed.

End NumberFacts.

(** ** Progress as published and as shown *)

Section ProgressFacts.
Context {rt : Runtime}.

(** The second server broadcasts the percent of the notification, rounded,
    whatever it broadcast before. *)
Lemma published_percent_on_progress (j : Server2.Job) (now now' : Z)
    (p : Progress) (s : State Server2.Job) :
  Server2.published_percent (Server2.on_progress j now now' p s)
  = (Server2.published_percent s
     ++ [JS.or_num
           (JS.div (JS.Math_round (JS.mul (percent p) (JS.num 100)))
              (JS.num 100))
           (JS.num 0)])%list.
Proof.
  unfold Server2.published_percent, Server2.on_progress, io_emit. simpl.
  by rewrite omap_app.
Qed.

(** What the second server broadcasts as percent is a number. *)
Lemma progressData_percent_not_NaN (j : Server2.Job) (now now' : Z)
    (p : Progress) :
  JS.isNaN (cp_percent (Server2.progressData j now now' p)) = false.
Proof. apply or_num_zero_not_NaN. Qed.

Lemma on_conversionProgress_percent (prev data : ConversionProgress) :
  JS.isNaN (cp_percent prev) = false ->
  JS.isNaN (cp_percent data) = false ->
  JS.isNaN (cp_percent (App.on_conversionProgress prev data)) = false
  /\ JS.le (cp_percent prev) (cp_percent (App.on_conversionProgress prev data))
     = true.
Proof.
  intros Hp Hd. simpl. split.
  - apply Math_max_not_NaN; [done|]. by apply mapped_not_NaN.
  - apply le_Math_max_l; [done|]. by apply mapped_not_NaN.
Qed.

Lemma shown_non_decreasing (ds : list ConversionProgress) :
  Forall (fun d => JS.isNaN (cp_percent d) = false) ds ->
  forall prev, JS.isNaN (cp_percent prev) = false ->
  non_decreasing (cp_percent prev :: map cp_percent (App.shown prev ds)) = true.
Proof.
  induction 1 as [|d ds Hd _ IH]; intros prev Hp; [done|].
  destruct (on_conversionProgress_percent prev d Hp Hd) as [Hn Hle].
  change (JS.le (cp_percent prev) (cp_percent (App.on_conversionProgress prev d))
          && non_decreasing
               (cp_percent (App.on_conversionProgress prev d)
                :: map cp_percent (App.shown (App.on_conversionProgress prev d) ds))
          = true).
  rewrite Hle. simpl. by apply IH.
Qed.

(** C1, as the code has it.  The server that runs transcodes, the second
    one, keeps no percent between notifications: each ['progress'] of the
    engine is broadcast once, with the percent of that notification rounded
    to hundredths (0 when that is NaN or zero), whatever was broadcast
    before.  It is the page that keeps the percent from going back: on each
    broadcast it shows the larger of what it showed and 50 plus half the
    percent received, so over any run of broadcasts of the second server,
    starting from a percent that is a number, the percent shown never
    decreases. *)
Theorem shown_percent_never_decreases (j : Server2.Job)
    (ticks : list (Z * Z * Progress)) (prev : ConversionProgress) :
  JS.isNaN (cp_percent prev) = false ->
  (forall now now' p s,
     Server2.published_percent (Server2.on_progress j now now' p s)
     = (Server2.published_percent s
        ++ [JS.or_num
              (JS.div (JS.Math_round (JS.mul (percent p) (JS.num 100)))
                 (JS.num 100))
              (JS.num 0)])%list)
  /\ (forall before data,
        cp_percent (App.on_conversionProgress before data)
        = JS.Math_max (cp_percent before)
            (JS.add (JS.num 50) (JS.mul (cp_percent data) (JS.Fin (1 # 2)))))
  /\ non_decreasing
       (cp_percent prev
        :: map cp_percent (App.shown prev (Server2.broadcasts j ticks)))
     = true.
Proof.
  intros Hp. split; [apply published_percent_on_progress|].
  split; [reflexivity|].
  apply shown_non_decreasing; [|done].
  unfold Server2.broadcasts. apply Forall_map, Forall_forall. intros t _.
  apply progressData_percent_not_NaN.
Qed.

End ProgressFacts.

(** C1 fails as stated: [clip] is posted to the second server, its command
    starts, and the engine reports 80 and then 60 percent; the server
    publishes 80 and then 60. *)
Lemma published_percent_decreases :
  let s := Server2.handle_all (rt := posix) initial Sample.backwards in
  Server2.published_percent s = [JS.num 80; JS.num 60]
  /\ non_decreasing (Server2.published_percent s) = false.
Proof. vm_compute. done. Qed.

(** The page, launched at 0 percent, on the broadcasts for 80 and then 60
    percent: it shows 90 and stays there. *)
Lemma shown_percent_never_decreases_witness :
  JS.isNaN (cp_percent Sample.launched) = false
  /\ map cp_percent
       (App.shown Sample.launched
          (Server2.broadcasts (rt := posix) Sample.job2
             [(1700000010000, 1700000010000, Sample.at_percent 80);
              (1700000011000, 1700000011000, Sample.at_percent 60)]%Z))
     = [JS.num 90; JS.num 90]
  /\ non_decreasing
       (cp_percent Sample.launched
        :: map cp_percent
             (App.shown Sample.launched
                (Server2.broadcasts (rt := posix) Sample.job2
                   [(1700000010000, 1700000010000, Sample.at_percent 80);
                    (1700000011000, 1700000011000, Sample.at_percent 60)]%Z)))
     = true.
Proof.
  split; [reflexivity|]. split; [by vm_compute|].
  exact (proj2 (proj2 (shown_percent_never_decreases (rt := posix) Sample.job2
                         _ Sample.launched eq_refl))).
Defined.

(** ** The terminal listeners *)

Section TerminalFacts.
Implicit Type s : State Server2.Job.

(** The answer to a request that was already answered stays, and the second
    [res.json] throws. *)
Lemma answered_again (rid : nat) (r r' : Response) s :
  responses (res_json rid r' (res_json rid r s)) = responses (res_json rid r s)
  /\ thrown (res_json rid r' (res_json rid r s))
     = (thrown (res_json rid r s) ++ ["ERR_HTTP_HEADERS_SENT"])%list.
Proof.
  unfold res_json. simpl.
  destruct (responses s !! rid) as [r0|] eqn:E.
  - by rewrite E.
  - by rewrite lookup_insert_eq.
Qed.

(** C2, as the code has it: terminal handling is not idempotent.  Every
    ['end'] that reaches the listener of the second server is counted,
    broadcast and given its two deletion timers, a second one for the same
    job included, and an ['error'] that follows an ['end'] is counted as a
    failure on top of the success.  What happens once is the HTTP response:
    the first one stands, and the later [res.json] throws out of the
    listener. *)
Theorem terminal_callbacks_count_each_time (rid : nat) (j : Server2.Job) s :
  let once := Server2.on_end rid j s in
  let twice := Server2.on_end rid j once in
  let both := Server2.on_error rid j once in
  let t_in := {| delay := 600000; unlinks := [Server2.inputPath j] |} in
  let t_out := {| delay := 600000; unlinks := [Server2.outputPath j] |} in
  let complete :=
    ("conversionComplete", PObject [("status", JStr "completed")]) in
  conversionStats once
  = {| totalConverted := S (totalConverted (conversionStats s));
       successfulConversions := S (successfulConversions (conversionStats s));
       failedConversions := failedConversions (conversionStats s) |}
  /\ timers once = (timers s ++ [t_in; t_out])%list
  /\ conversionStats twice
     = {| totalConverted := S (S (totalConverted (conversionStats s)));
          successfulConversions :=
            S (S (successfulConversions (conversionStats s)));
          failedConversions := failedConversions (conversionStats s) |}
  /\ timers twice = (timers s ++ [t_in; t_out; t_in; t_out])%list
  /\ emitted twice = (emitted s ++ [complete; complete])%list
  /\ responses twice = responses once
  /\ thrown twice = (thrown once ++ ["ERR_HTTP_HEADERS_SENT"])%list
  /\ conversionStats both
     = {| totalConverted := S (S (totalConverted (conversionStats s)));
          successfulConversions := S (successfulConversions (conversionStats s));
          failedConversions := S (failedConversions (conversionStats s)) |}
  /\ responses both = responses once
  /\ thrown both = (thrown once ++ ["ERR_HTTP_HEADERS_SENT"])%list.
Proof.
  cbv zeta. split; [reflexivity|]. split.
  { unfold Server2.on_end, Server2.cleanupFiles. simpl.
    by rewrite <- app_assoc. }
  split; [reflexivity|]. split.
  { unfold Server2.on_end, Server2.cleanupFiles. simpl.
    by rewrite <- !app_assoc. }
  split.
  { unfold Server2.on_end, Server2.cleanupFiles. simpl.
    by rewrite <- app_assoc. }
  unfold Server2.on_end, Server2.on_error, res_json. simpl.
  destruct (responses s !! rid) as [r0|] eqn:E.
  - rewrite E. done.
  - rewrite lookup_insert_eq. done.
Qed.

(** C3: what the ['error'] listener of the second server does.  The failure
    is counted, a fixed text is broadcast and answered with status 500 and
    no file name, but [cleanupFiles] is not called: no timer is set and no
    file is unlinked, so the uploaded input of a failed job is not
    scheduled for deletion, where the ['end'] listener schedules the input
    and the output. *)
Theorem failure_schedules_no_deletion (rid : nat) (j : Server2.Job) s :
  let s' := Server2.on_error rid j s in
  timers s' = timers s
  /\ files s' = files s
  /\ conversionStats s'
     = {| totalConverted := S (totalConverted (conversionStats s));
          successfulConversions := successfulConversions (conversionStats s);
          failedConversions := S (failedConversions (conversionStats s)) |}
  /\ emitted s'
     = (emitted s
        ++ [("conversionError", PObject [("error", JStr "转换失败")])])%list
  /\ (responses s !! rid = None ->
      responses s'
      = <[rid := {| status := 500; body := [("error", JStr "转换失败")] |}]>
          (responses s))
  /\ timers (Server2.on_end rid j s)
     = (timers s
        ++ [{| delay := 600000; unlinks := [Server2.inputPath j] |};
            {| delay := 600000; unlinks := [Server2.outputPath j] |}])%list.
Proof.
  cbv zeta. split; [reflexivity|]. split; [reflexivity|].
  split; [reflexivity|]. split; [reflexivity|]. split.
  - intros Hnew. unfold Server2.on_error, res_json. simpl. by rewrite Hnew.
  - unfold Server2.on_end, Server2.cleanupFiles. simpl.
    by rewrite <- app_assoc.
Qed.

End TerminalFacts.

(** C2 fails as stated: [clip] is posted to the second server and ffmpeg
    delivers ['end'] twice for its command.  The second callback is not
    ignored: the conversion is counted twice, completion is broadcast
    twice, four deletion timers are set, and the second [res.json] throws,
    which ends the process: a request that comes next is not handled. *)
Lemma second_end_is_counted_again :
  let once := Server2.handle (rt := posix) Sample.posted2 (Server2.FfmpegEnd 0) in
  let twice := Server2.handle (rt := posix) once (Server2.FfmpegEnd 0) in
  totalConverted (conversionStats once) = 1
  /\ length (timers once) = 2
  /\ thrown once = []
  /\ totalConverted (conversionStats twice) = 2
  /\ successfulConversions (conversionStats twice) = 2
  /\ length (timers twice) = 4
  /\ Wire.count_event "conversionComplete" twice = 2
  /\ thrown twice = ["ERR_HTTP_HEADERS_SENT"]
  /\ Server2.handle (rt := posix) twice
       (Server2.PostConvert Sample.env2 (Some Sample.clip) Sample.to_webm)
     = twice.
Proof. vm_compute. done. Qed.

(** C3 on [clip]: posted to the second server, its command fails.  The
    stored upload is still there, and no timer is pending that would
    delete it. *)
Lemma failed_upload_is_left_behind :
  let s := Server2.handle (rt := posix) Sample.posted2 (Server2.FfmpegError 0) in
  elements (files s) = ["uploads/3f2a9c"]
  /\ timers s = []
  /\ failedConversions (conversionStats s) = 1
  /\ status <$> responses s !! 0 = Some 500.
Proof. vm_compute. done. Qed.

(** ** The statistics *)

Section StatsFacts.
Context {rt : Runtime}.
Implicit Type s : State Server2.Job.

Lemma conversionStats_route env video form s :
  conversionStats (Server2.route env video form s) = conversionStats s
  /\ next_request (Server2.route env video form s) = S (next_request s).
Proof. by destruct video. Qed.

Lemma conversionStats_fire {J : Type} (i : nat) (s : State J) :
  conversionStats (fire i s) = conversionStats s
  /\ next_request (fire i s) = next_request s.
Proof. unfold fire. by destruct (timers s !! i). Qed.

(** The sum of the counters of the second server, whatever reaches its
    listeners and in whatever order, duplicates included. *)
Lemma stats_sum_handle s (e : Server2.Event) :
  totalConverted (conversionStats s)
  = successfulConversions (conversionStats s)
    + failedConversions (conversionStats s) ->
  totalConverted (conversionStats (Server2.handle s e))
  = successfulConversions (conversionStats (Server2.handle s e))
    + failedConversions (conversionStats (Server2.handle s e)).
Proof.
  intros Hs. unfold Server2.handle. destruct (alive s); [|done].
  destruct e as [env video form|rid|rid now now' p|rid|rid|i]; simpl.
  - by rewrite (proj1 (conversionStats_route env video form s)).
  - by destruct (jobs s !! rid).
  - by destruct (jobs s !! rid).
  - destruct (jobs s !! rid); [simpl; lia|done].
  - destruct (jobs s !! rid); [simpl; lia|done].
  - by rewrite (proj1 (conversionStats_fire i s)).
Qed.

Lemma stats_sum_after_any_events (es : list Server2.Event) :
  let c := conversionStats (Server2.handle_all initial es) in
  totalConverted c = successfulConversions c + failedConversions c.
Proof.
  simpl. unfold Server2.handle_all.
  induction es as [|e es IH] using rev_ind; [done|].
  rewrite fold_left_app. simpl fold_left. by apply stats_sum_handle.
Qed.

(** What holds of every world that ffmpeg and the requests can bring
    about: the counters are the sizes of the sets of ended and of failed
    jobs, which are disjoint from each other and from the running ones,
    and every job was numbered before the next request. *)
Lemma reachable_consistent (w : Server2.World) :
  Server2.reachable w ->
  successfulConversions (conversionStats (Server2.server w))
  = size (Server2.succeeded w)
  /\ failedConversions (conversionStats (Server2.server w))
     = size (Server2.failed w)
  /\ totalConverted (conversionStats (Server2.server w))
     = successfulConversions (conversionStats (Server2.server w))
       + failedConversions (conversionStats (Server2.server w))
  /\ Server2.succeeded w ## Server2.failed w
  /\ Server2.running w ## Server2.succeeded w ∪ Server2.failed w
  /\ (forall rid,
        rid ∈ Server2.running w ∪ Server2.succeeded w ∪ Server2.failed w ->
        rid < next_request (Server2.server w)).
Proof.
  unfold Server2.reachable. intros Hw. pattern w. revert w Hw.
  apply rtc_ind_r.
  { simpl. repeat split; done. }
  intros w1 w2 _ Hstep (Hsucc & Hfail & Hsum & Hdisj & Hrun & Hfresh).
  destruct Hstep as [w env video form s'|w rid j Hin Hj
                    |w rid j now now' p Hin Hj|w rid j Hin Hj
                    |w rid j Hin Hj|w i]; simpl.
  - subst s'.
    destruct (conversionStats_route env video form (Server2.server w))
      as [-> ->].
    assert (Hst : Server2.started (Server2.server w)
                    (Server2.route env video form (Server2.server w))
                  ⊆ {[next_request (Server2.server w)]}).
    { unfold Server2.started. destruct (jobs _ !! _); set_solver. }
    assert (Hnew : next_request (Server2.server w)
                   ∉ Server2.succeeded w ∪ Server2.failed w).
    { intros Hin. specialize (Hfresh (next_request (Server2.server w))).
      assert (next_request (Server2.server w) < next_request (Server2.server w))
        by (apply Hfresh; set_solver).
      lia. }
    repeat split; try done.
    + set_solver.
    + intros rid Hrid.
      destruct (decide (rid = next_request (Server2.server w))) as [->|Hne];
        [lia|].
      assert (rid < next_request (Server2.server w)); [|lia].
      apply Hfresh. set_solver.
  - repeat split; done.
  - repeat split; done.
  - assert (Hnot : rid ∉ Server2.succeeded w) by set_solver.
    repeat split.
    + rewrite size_union by set_solver. rewrite size_singleton. lia.
    + done.
    + lia.
    + set_solver.
    + set_solver.
    + intros r Hr. apply Hfresh. set_solver.
  - assert (Hnot : rid ∉ Server2.failed w) by set_solver.
    repeat split.
    + done.
    + rewrite size_union by set_solver. rewrite size_singleton. lia.
    + lia.
    + set_solver.
    + set_solver.
    + intros r Hr. apply Hfresh. set_solver.
  - destruct (conversionStats_fire i (Server2.server w)) as [-> ->].
    repeat split; done.
Qed.

(** A request handled by the second server: without a file it is answered
    400 at once and starts nothing; with a file it starts a command and is
    not answered yet.  No exception is raised. *)
Lemma route_cases env video form s :
  responses s !! next_request s = None ->
  (jobs (Server2.route env video form s) = jobs s
   /\ exists r, status r = 400
                /\ responses (Server2.route env video form s)
                   = <[next_request s := r]> (responses s))
  \/ (responses (Server2.route env video form s) = responses s
      /\ exists j, jobs (Server2.route env video form s)
                   = <[next_request s := j]> (jobs s)).
Proof.
  intros Hnew. destruct video as [file|].
  - right. split; [done|]. simpl. eauto.
  - left. split; [done|].
    unfold Server2.route, Server2.post, Server2.convert, res_json. simpl.
    rewrite Hnew. eexists. split; [|reflexivity]. reflexivity.
Qed.

Lemma thrown_route env video form s :
  responses s !! next_request s = None ->
  thrown (Server2.route env video form s) = thrown s.
Proof.
  intros Hnew. destruct video as [file|]; [done|].
  unfold Server2.route, Server2.post, Server2.convert, res_json. simpl.
  by rewrite Hnew.
Qed.

Lemma fire_same {J : Type} (i : nat) (s : State J) :
  responses (fire i s) = responses s /\ jobs (fire i s) = jobs s
  /\ thrown (fire i s) = thrown s.
Proof. unfold fire. by destruct (timers s !! i). Qed.

(** How the sets of the world read in the process state: the running
    commands are the started ones whose request is not answered, the
    finished ones those whose request is answered. *)
Lemma reachable_answered (w : Server2.World) :
  Server2.reachable w ->
  (forall rid, is_Some (responses (Server2.server w) !! rid) ->
               rid < next_request (Server2.server w))
  /\ (forall rid, is_Some (jobs (Server2.server w) !! rid) ->
                  rid < next_request (Server2.server w))
  /\ (forall rid, rid ∈ Server2.running w ->
                  is_Some (jobs (Server2.server w) !! rid)
                  /\ responses (Server2.server w) !! rid = None)
  /\ (forall rid, rid ∈ Server2.terminal w ->
                  is_Some (jobs (Server2.server w) !! rid)
                  /\ is_Some (responses (Server2.server w) !! rid))
  /\ (forall rid, is_Some (jobs (Server2.server w) !! rid) ->
                  rid ∈ Server2.running w ∪ Server2.terminal w).
Proof.
  unfold Server2.reachable. intros Hw. pattern w. revert w Hw.
  apply rtc_ind_r.
  { simpl. unfold Server2.terminal. simpl.
    repeat split.
    all: try (intros rid Hrid; rewrite lookup_empty in Hrid; by destruct Hrid).
    all: set_solver. }
  intros w1 w2 _ Hstep (Hres & Hjobs & Hrun & Hterm & Hall).
  unfold Server2.terminal in *.
  destruct Hstep as [w env video form s'|w rid j Hin Hj
                    |w rid j now now' p Hin Hj|w rid j Hin Hj
                    |w rid j Hin Hj|w i]; simpl.
  - subst s'.
    rewrite (proj2 (conversionStats_route env video form (Server2.server w))).
    set (n := next_request (Server2.server w)) in *.
    assert (Hnew : responses (Server2.server w) !! n = None).
    { destruct (responses (Server2.server w) !! n) eqn:E; [|done].
      specialize (Hres n). rewrite E in Hres.
      assert (n < n) by (apply Hres; eauto). lia. }
    assert (Hnoj : jobs (Server2.server w) !! n = None).
    { destruct (jobs (Server2.server w) !! n) eqn:E; [|done].
      specialize (Hjobs n). rewrite E in Hjobs.
      assert (n < n) by (apply Hjobs; eauto). lia. }
    unfold Server2.started. fold n.
    destruct (route_cases env video form (Server2.server w) Hnew)
      as [[-> (r & _ & ->)]|[-> [j ->]]].
    + rewrite Hnoj. repeat split.
      * intros rid [x Hx]. destruct (decide (rid = n)) as [->|Hne]; [lia|].
        rewrite lookup_insert_ne in Hx by done.
        assert (rid < n) by (apply Hres; eauto). lia.
      * intros rid Hrid. assert (rid < n) by by apply Hjobs. lia.
      * apply Hrun. set_solver.
      * assert (rid ∈ Server2.running w) as Hr by set_solver.
        destruct (Hrun rid Hr) as [Hj Hn].
        assert (rid < n) by by apply Hjobs.
        rewrite lookup_insert_ne by lia. done.
      * by apply Hterm.
      * destruct (Hterm rid) as [Hj [x Hx]]; [done|].
        assert (rid < n) by by apply Hjobs.
        rewrite lookup_insert_ne by lia. eauto.
      * intros rid Hrid. specialize (Hall rid Hrid). set_solver.
    + rewrite lookup_insert_eq. repeat split.
      * intros rid Hrid. assert (rid < n) by by apply Hres. lia.
      * intros rid [x Hx]. destruct (decide (rid = n)) as [->|Hne]; [lia|].
        rewrite lookup_insert_ne in Hx by done.
        assert (rid < n) by (apply Hjobs; eauto). lia.
      * destruct (decide (rid = n)) as [->|Hne].
        { rewrite lookup_insert_eq. eauto. }
        rewrite lookup_insert_ne by done. apply Hrun. set_solver.
      * destruct (decide (rid = n)) as [->|Hne]; [done|].
        apply Hrun. set_solver.
      * destruct (Hterm rid) as [Hj Hr]; [done|].
        assert (rid < n) by by apply Hjobs.
        rewrite lookup_insert_ne by lia. done.
      * by apply Hterm.
      * intros rid [x Hx]. destruct (decide (rid = n)) as [->|Hne];
          [set_solver|].
        rewrite lookup_insert_ne in Hx by done.
        assert (rid ∈ Server2.running w
                      ∪ (Server2.succeeded w ∪ Server2.failed w))
          by (apply Hall; eauto).
        set_solver.
  - repeat split; try done.
    + by apply Hrun.
    + by apply Hrun.
    + by apply Hterm.
    + by apply Hterm.
  - repeat split; try done.
    + by apply Hrun.
    + by apply Hrun.
    + by apply Hterm.
    + by apply Hterm.
  - destruct (Hrun rid Hin) as [_ Hnone].
    unfold Server2.on_end, res_json. simpl. rewrite Hnone.
    repeat split.
    + intros r [x Hx]. destruct (decide (r = rid)) as [->|Hne].
      * apply Hjobs. eauto.
      * rewrite lookup_insert_ne in Hx by done. apply Hres. eauto.
    + done.
    + apply Hrun. set_solver.
    + assert (rid0 <> rid) by set_solver.
      rewrite lookup_insert_ne by done. apply Hrun. set_solver.
    + destruct (decide (rid0 = rid)) as [->|Hne]; [eauto|].
      apply Hterm. set_solver.
    + destruct (decide (rid0 = rid)) as [->|Hne].
      * rewrite lookup_insert_eq. eauto.
      * rewrite lookup_insert_ne by done. apply Hterm. set_solver.
    + intros r Hr. specialize (Hall r Hr).
      destruct (decide (r = rid)) as [->|Hne]; set_solver.
  - destruct (Hrun rid Hin) as [_ Hnone].
    unfold Server2.on_error, res_json. simpl. rewrite Hnone.
    repeat split.
    + intros r [x Hx]. destruct (decide (r = rid)) as [->|Hne].
      * apply Hjobs. eauto.
      * rewrite lookup_insert_ne in Hx by done. apply Hres. eauto.
    + done.
    + apply Hrun. set_solver.
    + assert (rid0 <> rid) by set_solver.
      rewrite lookup_insert_ne by done. apply Hrun. set_solver.
    + destruct (decide (rid0 = rid)) as [->|Hne]; [eauto|].
      apply Hterm. set_solver.
    + destruct (decide (rid0 = rid)) as [->|Hne].
      * rewrite lookup_insert_eq. eauto.
      * rewrite lookup_insert_ne by done. apply Hterm. set_solver.
    + intros r Hr. specialize (Hall r Hr).
      destruct (decide (r = rid)) as [->|Hne]; set_solver.
  - destruct (fire_same i (Server2.server w)) as (-> & -> & _).
    rewrite (proj2 (conversionStats_fire i (Server2.server w))).
    repeat split; try done.
    + by apply Hrun.
    + by apply Hrun.
    + by apply Hterm.
    + by apply Hterm.
Qed.

(** With a ffmpeg that ends or fails each command once, no listener
    throws. *)
Lemma reachable_no_throw (w : Server2.World) :
  Server2.reachable w -> thrown (Server2.server w) = [].
Proof.
  unfold Server2.reachable. intros Hw. pattern w. revert w Hw.
  apply rtc_ind_r; [done|].
  intros w1 w2 Hreach Hstep IH.
  destruct (reachable_answered w1 Hreach) as (Hres & _ & Hrun & _ & _).
  destruct Hstep as [w env video form s'|w rid j Hin Hj
                    |w rid j now now' p Hin Hj|w rid j Hin Hj
                    |w rid j Hin Hj|w i]; simpl.
  - subst s'. rewrite thrown_route; [done|].
    destruct (responses (Server2.server w) !! _) eqn:E; [|done].
    assert (next_request (Server2.server w) < next_request (Server2.server w))
      by (apply Hres; rewrite E; eauto).
    lia.
  - done.
  - done.
  - destruct (Hrun rid Hin) as [_ Hnone].
    unfold Server2.on_end, res_json. simpl. by rewrite Hnone.
  - destruct (Hrun rid Hin) as [_ Hnone].
    unfold Server2.on_error, res_json. simpl. by rewrite Hnone.
  - by rewrite (proj2 (proj2 (fire_same i (Server2.server w)))).
Qed.

(** C4: on the server that runs transcodes, in every world that the
    requests and a ffmpeg that ends or fails each command once can bring
    about, the total is the sum of the successes and the failures, and it
    is the number of jobs that have reached a terminal phase: each of them
    was counted once, when it ended or failed.  Those jobs are the started
    commands whose request has been answered, and no listener has
    thrown. *)
Theorem stats_count_terminal_jobs (w : Server2.World) :
  Server2.reachable w ->
  let c := conversionStats (Server2.server w) in
  totalConverted c = successfulConversions c + failedConversions c
  /\ totalConverted c = size (Server2.terminal w)
  /\ successfulConversions c = size (Server2.succeeded w)
  /\ failedConversions c = size (Server2.failed w)
  /\ (forall rid,
        rid ∈ Server2.terminal w
        <-> is_Some (jobs (Server2.server w) !! rid)
            /\ is_Some (responses (Server2.server w) !! rid))
  /\ thrown (Server2.server w) = [].
Proof.
  intros Hw. destruct (reachable_consistent w Hw)
    as (Hsucc & Hfail & Hsum & Hdisj & _ & _).
  destruct (reachable_answered w Hw) as (_ & _ & Hrun & Hterm & Hall).
  simpl. split; [done|]. split.
  { unfold Server2.terminal. rewrite size_union by done. lia. }
  split; [done|]. split; [done|]. split; [|by apply reachable_no_throw].
  intros rid. split; [apply Hterm|].
  intros [Hj [r Hr]].
  destruct (proj1 (elem_of_union _ _ _) (Hall rid Hj)) as [Hin|Hin]; [|done].
  destruct (Hrun rid Hin) as [_ Hnone]. congruence.
Qed.

End StatsFacts.

(** [clip] is posted to the second server and its command ends. *)
Lemma ended_world_is_reachable :
  Server2.reachable (rt := posix) Sample.ended_world.
Proof.
  unfold Server2.reachable.
  eapply rtc_l; [apply (Server2.step_post Server2.boot Sample.env2
                          (Some Sample.clip) Sample.to_webm)|].
  eapply rtc_l; [|apply rtc_refl].
  apply (Server2.step_end Sample.posted_world 0 Sample.job2);
    vm_compute; reflexivity.
Qed.

(** In that world one conversion is counted, and one job has ended. *)
Lemma stats_count_terminal_jobs_witness :
  Server2.reachable (rt := posix) Sample.ended_world
  /\ totalConverted (conversionStats (Server2.server Sample.ended_world)) = 1
  /\ totalConverted (conversionStats (Server2.server Sample.ended_world))
     = size (Server2.terminal Sample.ended_world).
Proof.
  split; [exact ended_world_is_reachable|]. split; [reflexivity|].
  exact (proj1 (proj2 (stats_count_terminal_jobs (rt := posix)
                         Sample.ended_world ended_world_is_reachable))).
Defined.

(** ** Requests *)

Section RequestFacts.
Context {rt : Runtime}.

(** fluent-ffmpeg does not take the size [?x?], on any command. *)
Lemma size_rejected (cmd : FfmpegCommand) :
  setSize "?x?" cmd = inl "Invalid size specified: ?x?".
Proof. reflexivity. Qed.

(** The handler of the first server on a request with a file: it logs the
    two paths and the two formats, and what [size] throws is answered. *)
Lemma convert_with_file (rid : nat) (f : ReqFile) (form : Form)
    (s : State Server.Job) :
  let name := path_basename (path f) (Some (path_extname (path f))) in
  let out :=
    path_join Server.outputDir
      (name +:+ "." +:+ JS.or_str (outputFormat form) "ivf") in
  Server.convert rid (Some f) form s
  = res_error rid "Invalid size specified: ?x?"
      (console_log
         ("输入格式: " +:+ JS.or_str (inputFormat form) "mp4" +:+ ", 输出格式: "
          +:+ JS.or_str (outputFormat form) "ivf")
         (console_log ("开始转换: " +:+ path f +:+ " -> " +:+ out) s)).
Proof. reflexivity. Qed.


(** An upload that the filter keeps and that is below the size limit
    reaches the handler of the first server, stored. *)
Lemma post_accepted (env : Server.Env) (file : Upload) (form : Form)
    (s : State Server.Job) :
  toLowerCase (path_extname (originalname file)) ∈ Server.supportedFormats ->
  (bytes file < Server.fileSize)%Z ->
  let name := Server.storage_filename env file in
  let p := path_join Server.uploadDir name in
  Server.post env (Some file) form s
  = Server.convert (next_request s)
      (Some {| part := file; filename := name; path := p |}) form
      (write_file p (accept s)).
Proof.
  intros Hext Hsz. unfold Server.post, Server.upload_single, Server.fileFilter.
  rewrite bool_decide_eq_true_2 by done.
  replace (Server.fileSize <? bytes file)%Z with false
    by (symmetry; apply Z.ltb_ge; lia).
  replace (bytes file =? Server.fileSize)%Z with false
    by (symmetry; apply Z.eqb_neq; lia).
  by rewrite andb_false_r.
Qed.

Lemma or_str_default (x : option string) (c : ascii) (d : string) :
  JS.or_str (Some (default (String c d) x)) (String c d)
  = JS.or_str x (String c d).
Proof. by destruct x as [[|]|]. Qed.


(** The first server refuses an upload whose extension, in lower case, is
    not a supported one: multer gets the error of [fileFilter], nothing is
    stored, the handler does not run, Express answers the error. *)
Lemma unsupported_upload_is_refused (env : Server.Env) (file : Upload)
    (form : Form) (s : State Server.Job) :
  toLowerCase (path_extname (originalname file)) ∉ Server.supportedFormats ->
  exists message,
    Server.fileFilter file = inl message
    /\ Server.post env (Some file) form s
       = res_error (next_request s) message (accept s).
Proof.
  intros Hext. unfold Server.post, Server.upload_single, Server.fileFilter.
  rewrite bool_decide_eq_false_2 by done. eauto.
Qed.

(** C6: the second server has no file filter.  Whatever the name of the
    upload, its file is stored and a transcode is started on it; nothing
    is answered at that point. *)
Theorem second_server_stores_any_upload (env : Server2.Env) (file : Upload)
    (s : State Server2.Job) :
  let s' := Server2.post env (Some file) s in
  files s' = {[path_join "uploads/" (Server2.tmpname env)]} ∪ files s
  /\ (exists j, jobs s' !! next_request s = Some j
                /\ Server2.inputPath j
                   = path_join "uploads/" (Server2.tmpname env))
  /\ responses s' = responses s.
Proof.
  simpl. split; [reflexivity|]. split; [|reflexivity].
  eexists. split; [apply lookup_insert_eq|reflexivity].
Qed.

(** C7: the command that the second server runs re-encodes the audio: its
    options are fixed and ask for [libvorbis], never for a copy of the
    stream; it sets no size.  The first server sets the audio codec [aac]
    on its command and then asks for the size [?x?], which fluent-ffmpeg
    refuses: its handler starts no command at all. *)
Theorem transcode_reencodes_audio (rid : nat) (f : ReqFile) (form : Form)
    (env : Server2.Env) (cmd : FfmpegCommand) (s : State Server.Job)
    (s2 : State Server2.Job) :
  (exists j, jobs (Server2.convert rid env (Some f) s2) !! rid = Some j
             /\ options (Server2.command j)
                = ["-c:v libvpx"; "-crf 10"; "-b:v 2M"; "-c:a libvorbis"]
             /\ audio_codec (Server2.command j) = None
             /\ size_spec (Server2.command j) = None)
  /\ setSize "?x?" (audioCodec "aac" cmd) = inl "Invalid size specified: ?x?"
  /\ jobs (Server.convert rid (Some f) form s) = jobs s.
Proof.
  split; [|split; [reflexivity|by rewrite convert_with_file]].
  eexists. split; [apply lookup_insert_eq|]. by repeat split.
Qed.

(** C9: what the first server does with a request that carries an accepted
    file and lacks a format field.  It does substitute the defaults: it
    goes on as for the same form with [mp4] and [ivf] written in for what
    is missing, and logs them.  But the request fails: the upload is
    stored, [size] throws on [?x?], the request is answered 500 with the
    message of that error, and no transcode is started. *)
Theorem absent_formats_take_defaults (env : Server.Env) (file : Upload)
    (form : Form) (s : State Server.Job) :
  inputFormat form = None \/ outputFormat form = None ->
  toLowerCase (path_extname (originalname file)) ∈ Server.supportedFormats ->
  (bytes file < Server.fileSize)%Z ->
  responses s !! next_request s = None ->
  let s' := Server.post env (Some file) form s in
  let p := path_join Server.uploadDir (Server.storage_filename env file) in
  s' = Server.post env (Some file)
         {| inputFormat := Some (default "mp4" (inputFormat form));
            outputFormat := Some (default "ivf" (outputFormat form)) |} s
  /\ last (console s')
     = Some ("输入格式: " +:+ JS.or_str (inputFormat form) "mp4"
             +:+ ", 输出格式: " +:+ JS.or_str (outputFormat form) "ivf")
  /\ (inputFormat form = None -> JS.or_str (inputFormat form) "mp4" = "mp4")
  /\ (outputFormat form = None -> JS.or_str (outputFormat form) "ivf" = "ivf")
  /\ files s' = {[p]} ∪ files s
  /\ responses s'
     = <[next_request s :=
           {| status := 500;
              body := [("message", JStr "Invalid size specified: ?x?")] |}]>
         (responses s)
  /\ jobs s' = jobs s
  /\ conversionStats s' = conversionStats s
  /\ timers s' = timers s /\ emitted s' = emitted s.
Proof.
  intros Habsent Hext Hsz Hnew. cbv zeta.
  rewrite !post_accepted by done. cbv zeta.
  rewrite !convert_with_file. cbv zeta.
  cbn [inputFormat outputFormat]. rewrite !or_str_default.
  split; [reflexivity|]. split.
  { simpl. by rewrite last_snoc. }
  split; [by intros ->|]. split; [by intros ->|].
  unfold res_error, res_json. simpl. rewrite Hnew. by repeat split.
Qed.

(** C10: a request without a file is answered 400 by both servers, and
    that is all that happens: nothing is counted, no command is started,
    no file is written, no timer is set, nothing is broadcast.  The request
    is a new one: nothing was answered to it before. *)
Theorem missing_file_is_refused (env : Server.Env) (form : Form)
    (env2 : Server2.Env) (s : State Server.Job) (s2 : State Server2.Job) :
  responses s !! next_request s = None ->
  responses s2 !! next_request s2 = None ->
  let s' := Server.post env None form s in
  let s2' := Server2.post env2 None s2 in
  (responses s'
   = <[next_request s :=
         {| status := 400;
            body := [("success", JBool false); ("error", JStr "没有上传文件")] |}]>
       (responses s)
   /\ conversionStats s' = conversionStats s /\ jobs s' = jobs s
   /\ files s' = files s /\ timers s' = timers s /\ emitted s' = emitted s)
  /\ (responses s2'
      = <[next_request s2 :=
            {| status := 400; body := [("error", JStr "没有上传文件")] |}]>
          (responses s2)
      /\ conversionStats s2' = conversionStats s2 /\ jobs s2' = jobs s2
      /\ files s2' = files s2 /\ timers s2' = timers s2
      /\ emitted s2' = emitted s2).
Proof.
  intros Hnew Hnew2. simpl. unfold res_json. simpl.
  rewrite Hnew, Hnew2. repeat split.
Qed.

End RequestFacts.

(** ** The estimated time of arrival *)

Section EtaFacts.
Context {rt : Runtime}.

Lemma sgn_nonneg (q : Q) : (0 <= q)%Q -> (0 <= JS.sgn q)%Z.
Proof.
  unfold Qle, JS.sgn. simpl. intros Hq. apply Z.sgn_nonneg. lia.
Qed.

(** The seconds elapsed since a start in the past are a finite number that
    is not negative. *)
Lemma elapsed_sign (now start : Z) :
  (start <= now)%Z ->
  exists e,
    JS.div (JS.sub (JS.num now) (JS.num start)) (JS.num 1000) = JS.Fin e
    /\ (0 <= JS.sgn e)%Z.
Proof.
  intros Hle. eexists. split; [reflexivity|].
  apply sgn_nonneg. rewrite Qred_correct.
  apply Qle_shift_div_l; [reflexivity|].
  rewrite Qmult_0_l, Qred_correct, Qred_correct.
  rewrite <- inject_Z_opp, <- inject_Z_plus.
  change 0%Q with (inject_Z 0). rewrite <- Zle_Qle. lia.
Qed.

Lemma percent_zero_rounded :
  JS.div (JS.Math_round (JS.mul (JS.num 0) (JS.num 100))) (JS.num 100)
  = JS.num 0.
Proof. reflexivity. Qed.

(** C8: what the second server broadcasts at zero percent.  The estimate
    divides the elapsed time by zero, so the remaining time sent is not a
    finite number and the ETA sent is the text of an invalid date. *)
Theorem eta_at_zero_percent_is_invalid (j : Server2.Job) (now now' : Z)
    (progress : Progress) :
  percent progress = JS.num 0 ->
  (Server2.startTime j <= now)%Z ->
  let d := Server2.progressData j now now' progress in
  cp_percent d = JS.num 0
  /\ JS.isFinite (cp_remainingTime d) = false
  /\ cp_eta d = "Invalid Date".
Proof.
  intros Hp Hle. unfold Server2.progressData. cbv zeta.
  destruct (elapsed_sign now (Server2.startTime j) Hle) as (e & -> & Hs).
  rewrite Hp, percent_zero_rounded.
  change (JS.div (JS.num 0) (JS.num 100)) with (JS.num 0).
  change (JS.div (JS.Fin e) (JS.num 0)) with (JS.signed_inf (JS.sgn e)).
  destruct (JS.sgn e) as [|p|p]; [by repeat split|by repeat split|lia].
Qed.

End EtaFacts.

(** ** The properties on the sample inputs *)


(** C6 on a text file sent as a video: the first server refuses it and
    stores nothing; the second server stores it and starts a transcode. *)
Lemma text_file_on_both_servers :
  let s := Server.post (rt := posix) Sample.env (Some Sample.notes)
             Sample.no_fields initial in
  let s2 := Server2.post (rt := posix) Sample.env2 (Some Sample.notes)
              initial in
  (files s = ∅ /\ jobs s = ∅ /\ status <$> responses s !! 0 = Some 500)
  /\ (elements (files s2) = ["uploads/3f2a9c"]
      /\ Server2.inputPath <$> jobs s2 !! 0 = Some "uploads/3f2a9c"
      /\ responses s2 = ∅).
Proof. vm_compute. done. Qed.

(** The second server one second after the start, nothing encoded yet. *)
Lemma eta_at_zero_percent_is_invalid_witness :
  percent Sample.at_start = JS.num 0
  /\ (Server2.startTime Sample.job2 <= 1700000001000)%Z
  /\ Server2.progressData (rt := posix) Sample.job2 1700000001000
       1700000001000 Sample.at_start
     = {| cp_percent := JS.num 0; cp_time := "00:00:00.00";
          cp_fps := JS.num 0; cp_remainingTime := JS.PosInfinity;
          cp_eta := "Invalid Date" |}
  /\ cp_eta (Server2.progressData (rt := posix) Sample.job2 1700000001000
               1700000001000 Sample.at_start) = "Invalid Date".
Proof.
  assert (Hle : (Server2.startTime Sample.job2 <= 1700000001000)%Z)
    by (vm_compute; discriminate).
  split; [reflexivity|]. split; [exact Hle|]. split; [reflexivity|].
  exact (proj2 (proj2 (eta_at_zero_percent_is_invalid (rt := posix)
                         Sample.job2 1700000001000 1700000001000
                         Sample.at_start eq_refl Hle))).
Defined.

Lemma sample_clip_supported :
  toLowerCase (Runtime := posix)
    (path_extname (Runtime := posix) (originalname Sample.clip))
  ∈ Server.supportedFormats.
Proof. vm_compute. set_solver. Qed.

(** C7 and C9 on [clip], posted to the first server without form fields:
    the defaults are logged, the upload is stored, and the request is
    answered 500; no command is started. *)
Lemma accepted_upload_fails_on_the_first_server :
  let s := Server.post (rt := posix) Sample.env (Some Sample.clip)
             Sample.no_fields initial in
  console s
  = ["开始转换: /srv/backend/uploads/1700000000000-42.mp4 -> /srv/backend/output/1700000000000-42.ivf";
     "输入格式: mp4, 输出格式: ivf"]
  /\ elements (files s) = ["/srv/backend/uploads/1700000000000-42.mp4"]
  /\ responses s !! 0
     = Some {| status := 500;
               body := [("message", JStr "Invalid size specified: ?x?")] |}
  /\ jobs s = ∅.
Proof. vm_compute. done. Qed.

(** [clip] posted to the first server, freshly started, without form
    fields. *)
Lemma absent_formats_take_defaults_witness :
  (inputFormat Sample.no_fields = None \/ outputFormat Sample.no_fields = None)
  /\ (bytes Sample.clip < Server.fileSize)%Z
  /\ responses (initial (J := Server.Job)) !! next_request (initial (J := Server.Job))
     = None
  /\ last (console (Server.post (rt := posix) Sample.env (Some Sample.clip)
                      Sample.no_fields initial))
     = Some "输入格式: mp4, 输出格式: ivf"
  /\ responses (Server.post (rt := posix) Sample.env (Some Sample.clip)
                  Sample.no_fields initial)
     = <[0 := {| status := 500;
                 body := [("message", JStr "Invalid size specified: ?x?")] |}]> ∅.
Proof.
  assert (Hsz : (bytes Sample.clip < Server.fileSize)%Z)
    by (vm_compute; reflexivity).
  pose proof (absent_formats_take_defaults (rt := posix) Sample.env Sample.clip
                Sample.no_fields initial (or_introl eq_refl)
                sample_clip_supported Hsz eq_refl) as H.
  split; [by left|]. split; [exact Hsz|]. split; [reflexivity|].
  split; [exact (proj1 (proj2 H))|].
  exact (proj1 (proj2 (proj2 (proj2 (proj2 (proj2 H)))))).
Defined.

(** Both servers, freshly started, on a request without a file. *)
Lemma missing_file_is_refused_witness :
  responses (initial (J := Server.Job)) !! next_request (initial (J := Server.Job))
  = None
  /\ responses (initial (J := Server2.Job))
       !! next_request (initial (J := Server2.Job)) = None
  /\ status <$> responses (Server.post (rt := posix) Sample.env None
                             Sample.no_fields initial) !! 0 = Some 400
  /\ conversionStats (Server.post (rt := posix) Sample.env None
                        Sample.no_fields initial)
     = conversionStats (initial (J := Server.Job)).
Proof.
  split; [reflexivity|]. split; [reflexivity|]. split; [by vm_compute|].
  exact (proj1 (proj2 (proj1 (missing_file_is_refused (rt := posix) Sample.env
                                Sample.no_fields Sample.env2 initial initial
                                eq_refl eq_refl)))).
Defined.

(** * Further properties *)

(** ** The second server over any sequence of events *)

Section TraceFacts.
Context {rt : Runtime}.
Implicit Type s : State Server2.Job.

(** What holds at the start and is kept by every event holds after any
    sequence of events. *)
Lemma handle_all_ind (P : State Server2.Job -> Prop) :
  P initial ->
  (forall s e, P s -> P (Server2.handle s e)) ->
  forall es, P (Server2.handle_all initial es).
Proof.
  intros H0 Hstep es. unfold Server2.handle_all.
  induction es as [|e es IH] using rev_ind; [done|].
  rewrite fold_left_app. simpl. by apply Hstep.
Qed.

Lemma route_keeps env video form s :
  emitted (Server2.route env video form s) = emitted s
  /\ timers (Server2.route env video form s) = timers s.
Proof. by destruct video. Qed.

Lemma fire_keeps {J : Type} (i : nat) (s : State J) :
  emitted (fire i s) = emitted s
  /\ length (timers (fire i s)) <= length (timers s)
  /\ (forall t, t ∈ timers (fire i s) -> t ∈ timers s)
  /\ files (fire i s) ⊆ files s.
Proof.
  unfold fire. destruct (timers s !! i) as [t|] eqn:E; simpl; [|done].
  split; [done|]. split.
  { rewrite length_delete by eauto. lia. }
  split; [|set_solver].
  intros t' Ht'. by eapply list_elem_of_delete_inv.
Qed.

(** Every outcome counted was broadcast, once: after any events on the
    second server, duplicates from ffmpeg included, the ['conversionError']
    broadcasts are as many as [failedConversions] and the
    ['conversionComplete'] broadcasts as many as
    [successfulConversions]. *)
Theorem failures_are_broadcast_once (es : list Server2.Event) :
  let s := Server2.handle_all initial es in
  Wire.count_event "conversionError" s = failedConversions (conversionStats s)
  /\ Wire.count_event "conversionComplete" s
     = successfulConversions (conversionStats s).
Proof.
  apply (handle_all_ind
           (fun s => Wire.count_event "conversionError" s
                     = failedConversions (conversionStats s)
                     /\ Wire.count_event "conversionComplete" s
                        = successfulConversions (conversionStats s)));
    [done|].
  intros s e [Hf Hs]. unfold Wire.count_event in *.
  unfold Server2.handle. destruct (alive s); [|done].
  destruct e as [env video form|rid|rid now now' p|rid|rid|i].
  - by rewrite (proj1 (route_keeps env video form s)),
         (proj1 (conversionStats_route env video form s)).
  - destruct (jobs s !! rid); [|done]. simpl.
    rewrite !filter_app, !length_app. simpl. lia.
  - destruct (jobs s !! rid); [|done]. simpl.
    rewrite !filter_app, !length_app. simpl. lia.
  - destruct (jobs s !! rid); [|done]. simpl.
    rewrite !filter_app, !length_app. simpl. lia.
  - destruct (jobs s !! rid); [|done]. simpl.
    rewrite !filter_app, !length_app. simpl. lia.
  - by rewrite (proj1 (fire_keeps i s)), (proj1 (conversionStats_fire i s)).
Qed.

(** Deletions are only ever scheduled for conversions that succeeded:
    after any events on the second server, the pending timers are at most
    twice as many as [successfulConversions], each of them a ten-minute
    timer on one path; as long as no timer has fired they are exactly
    twice as many. *)
Theorem timers_belong_to_successes (es : list Server2.Event) :
  let s := Server2.handle_all initial es in
  length (timers s) <= 2 * successfulConversions (conversionStats s)
  /\ Forall (fun t => delay t = 600000%Z /\ length (unlinks t) = 1) (timers s)
  /\ ((forall i, Server2.TimerFires i ∉ es) ->
      length (timers s) = 2 * successfulConversions (conversionStats s)).
Proof.
  simpl. split; [|split].
  - apply (handle_all_ind
             (fun s => length (timers s)
                       <= 2 * successfulConversions (conversionStats s)));
      [done|].
    intros s e Hs. unfold Server2.handle. destruct (alive s); [|done].
    destruct e as [env video form|rid|rid now now' p|rid|rid|i].
    + by rewrite (proj2 (route_keeps env video form s)),
           (proj1 (conversionStats_route env video form s)).
    + by destruct (jobs s !! rid).
    + by destruct (jobs s !! rid).
    + destruct (jobs s !! rid); [|done]. simpl. rewrite !length_app. simpl.
      lia.
    + destruct (jobs s !! rid); [|done]. simpl. lia.
    + rewrite (proj1 (conversionStats_fire i s)).
      pose proof (proj1 (proj2 (fire_keeps i s))). lia.
  - apply (handle_all_ind
             (fun s => Forall (fun t => delay t = 600000%Z
                                        /\ length (unlinks t) = 1) (timers s)));
      [done|].
    intros s e Hs. unfold Server2.handle. destruct (alive s); [|done].
    destruct e as [env video form|rid|rid now now' p|rid|rid|i].
    + by rewrite (proj2 (route_keeps env video form s)).
    + by destruct (jobs s !! rid).
    + by destruct (jobs s !! rid).
    + destruct (jobs s !! rid); [|done]. simpl.
      apply Forall_app. split; [apply Forall_app; split; [done|]|];
        by apply Forall_singleton.
    + by destruct (jobs s !! rid).
    + apply Forall_forall. intros t Ht.
      apply (proj1 (Forall_forall _ _) Hs).
      by apply (proj1 (proj2 (proj2 (fire_keeps i s)))).
  - unfold Server2.handle_all.
    induction es as [|e es IH] using rev_ind; [done|].
    intros Hno. rewrite fold_left_app. simpl fold_left.
    assert (IH' : length (timers (fold_left Server2.handle es initial))
                  = 2 * successfulConversions
                          (conversionStats (fold_left Server2.handle es initial))).
    { apply IH. intros i Hi. apply (Hno i). set_solver. }
    set (s := fold_left Server2.handle es initial) in *.
    unfold Server2.handle. destruct (alive s); [|simpl; lia].
    destruct e as [env video form|rid|rid now now' p|rid|rid|i].
    + by rewrite (proj2 (route_keeps env video form s)),
           (proj1 (conversionStats_route env video form s)).
    + by destruct (jobs s !! rid).
    + by destruct (jobs s !! rid).
    + destruct (jobs s !! rid); [|done]. simpl. rewrite !length_app. simpl.
      lia.
    + destruct (jobs s !! rid); [|done]. simpl. lia.
    + exfalso. apply (Hno i). set_solver.
Qed.

End TraceFacts.

(** ** The first server over any sequence of events *)

Section StoreFacts.
Context {rt : Runtime}.
Implicit Type s : State Server.Job.





End StoreFacts.

(** ** Answers and outcomes *)

Section AnswerFacts.
Context {rt : Runtime}.
Implicit Type s : State Server2.Job.

(** The status answered tells the outcome.  In every world that the
    requests and ffmpeg can bring about on the second server, the request
    of a job that ended has the answer 200 with the name of its output,
    the request of a job that failed has an answer 500, and no other
    request has an answer 200. *)
Theorem answers_tell_outcomes (w : Server2.World) :
  Server2.reachable w ->
  (forall rid, rid ∈ Server2.succeeded w ->
     exists j, jobs (Server2.server w) !! rid = Some j
               /\ responses (Server2.server w) !! rid
                  = Some (Server2.ok_response j))
  /\ (forall rid, rid ∈ Server2.failed w ->
        exists r, responses (Server2.server w) !! rid = Some r
                  /\ status r = 500)
  /\ (forall rid r, responses (Server2.server w) !! rid = Some r ->
        status r = 200 -> rid ∈ Server2.succeeded w).
Proof.
  unfold Server2.reachable. intros Hw. pattern w. revert w Hw.
  apply rtc_ind_r.
  { simpl. split; [set_solver|]. split; [set_solver|].
    intros rid r Hr. by rewrite lookup_empty in Hr. }
  intros w1 w2 Hreach Hstep (Hok & Hko & H200).
  destruct (reachable_answered w1 Hreach) as (Hres & Hjobs & Hrun & _ & _).
  destruct Hstep as [w env video form s'|w rid j Hin Hj
                    |w rid j now now' p Hin Hj|w rid j Hin Hj
                    |w rid j Hin Hj|w i]; simpl.
  - subst s'.
    assert (Hnew : responses (Server2.server w)
                     !! next_request (Server2.server w) = None).
    { destruct (responses (Server2.server w) !! _) eqn:E; [|done].
      assert (next_request (Server2.server w) < next_request (Server2.server w))
        by (apply Hres; rewrite E; eauto).
      lia. }
    assert (Hnoj : jobs (Server2.server w)
                     !! next_request (Server2.server w) = None).
    { destruct (jobs (Server2.server w) !! _) eqn:E; [|done].
      assert (next_request (Server2.server w) < next_request (Server2.server w))
        by (apply Hjobs; rewrite E; eauto).
      lia. }
    pose proof (route_cases env video form (Server2.server w) Hnew) as Hpa.
    remember (next_request (Server2.server w)) as n eqn:Hn.
    destruct Hpa as [[-> (r & Hst & ->)]|[-> [j ->]]].
    + split; [|split].
      * intros rid Hrid. destruct (Hok rid Hrid) as (j & Hj & Hr).
        exists j. split; [done|].
        rewrite lookup_insert_ne; [done|]. intros <-. congruence.
      * intros rid Hrid. destruct (Hko rid Hrid) as (r' & Hr & Hs).
        exists r'. split; [|done].
        rewrite lookup_insert_ne; [done|]. intros <-. congruence.
      * intros rid r' Hr H2. destruct (decide (rid = n)) as [->|Hne].
        -- rewrite lookup_insert_eq in Hr. injection Hr as <-. lia.
        -- rewrite lookup_insert_ne in Hr by done. by eapply H200.
    + split; [|split].
      * intros rid Hrid. destruct (Hok rid Hrid) as (j' & Hj & Hr).
        exists j'. split; [|done].
        rewrite lookup_insert_ne; [done|]. intros <-. congruence.
      * done.
      * done.
  - done.
  - done.
  - destruct (Hrun rid Hin) as [_ Hnone].
    unfold Server2.on_end, res_json. simpl. rewrite Hnone.
    split; [|split].
    + intros r [->%elem_of_singleton|Hr]%elem_of_union.
      * exists j. split; [done|]. by rewrite lookup_insert_eq.
      * destruct (Hok r Hr) as (j' & Hj' & Hr'). exists j'. split; [done|].
        rewrite lookup_insert_ne; [done|]. intros <-. congruence.
    + intros r Hr. destruct (Hko r Hr) as (r' & Hr' & Hs). exists r'.
      split; [|done]. rewrite lookup_insert_ne; [done|]. intros <-. congruence.
    + intros r r' Hr H2. destruct (decide (r = rid)) as [->|Hne];
        [set_solver|].
      rewrite lookup_insert_ne in Hr by done.
      apply elem_of_union_r. by eapply H200.
  - destruct (Hrun rid Hin) as [_ Hnone].
    unfold Server2.on_error, res_json. simpl. rewrite Hnone.
    split; [|split].
    + intros r Hr. destruct (Hok r Hr) as (j' & Hj' & Hr'). exists j'.
      split; [done|]. rewrite lookup_insert_ne; [done|]. intros <-. congruence.
    + intros r [->%elem_of_singleton|Hr]%elem_of_union.
      * eexists. by rewrite lookup_insert_eq.
      * destruct (Hko r Hr) as (r' & Hr' & Hs). exists r'. split; [|done].
        rewrite lookup_insert_ne; [done|]. intros <-. congruence.
    + intros r r' Hr H2. destruct (decide (r = rid)) as [->|Hne].
      * rewrite lookup_insert_eq in Hr. injection Hr as <-. simpl in H2. lia.
      * rewrite lookup_insert_ne in Hr by done. by eapply H200.
  - destruct (fire_same i (Server2.server w)) as (-> & -> & _). done.
Qed.

Lemma last_two {A : Type} (l : list A) (a b : A) :
  (l ++ [a; b])%list !! length l = Some a
  /\ (l ++ [a; b])%list !! S (length l) = Some b
  /\ delete (length l) (l ++ [a; b])%list = (l ++ [b])%list
  /\ delete (S (length l)) (l ++ [a; b])%list = (l ++ [a])%list
  /\ (l ++ [a])%list !! length l = Some a
  /\ delete (length l) (l ++ [a])%list = l.
Proof.
  induction l as [|x l (H1 & H2 & H3 & H4 & H5 & H6)]; [done|].
  simpl. rewrite H3, H4, H6. done.
Qed.

(** The second server sets one timer per file, and the order in which the
    two fire does not matter: either way both files are gone, the others
    stay, and the pending timers are those from before. *)
Theorem second_server_timers_commute (rid : nat) (j : Server2.Job)
    (s : State Server2.Job) :
  let ended := Server2.on_end rid j s in
  let n := length (timers s) in
  fire n (fire n ended) = fire n (fire (S n) ended)
  /\ timers (fire n (fire n ended)) = timers s
  /\ files (fire n (fire n ended))
     = files s ∖ {[Server2.inputPath j; Server2.outputPath j]}.
Proof.
  simpl. unfold fire, Server2.on_end, Server2.cleanupFiles. simpl.
  rewrite <- !app_assoc. simpl.
  set (a := {| delay := _; unlinks := [Server2.inputPath j] |}).
  set (b := {| delay := _; unlinks := [Server2.outputPath j] |}).
  destruct (last_two (timers s) a b) as (H1 & H2 & H3 & H4 & _ & _).
  destruct (last_two (timers s) b a) as (_ & _ & _ & _ & H5 & H6).
  destruct (last_two (timers s) a b) as (_ & _ & _ & _ & H7 & H8).
  rewrite H1, H2. simpl. rewrite H3, H4, H5, H7. simpl. rewrite H6, H8.
  split; [|split; [done|set_solver]].
  unfold set_files, set_timers. simpl. f_equal. set_solver.
Qed.



End AnswerFacts.

(** ** The sweep *)

Section SweepFacts.
Import Sweep.

(** What a swept directory holds: the files it held that the sweep did not
    unlink. *)
Lemma sweep_dir_lookup (now : Z) (fl : Faults) (dir : gmap string Z)
    (name : string) (mtime : Z) :
  sweep_dir now fl dir !! name = Some mtime
  <-> dir !! name = Some mtime
      /\ (readdir_fails fl = true \/ unlinked now fl name mtime = false).
Proof.
  unfold sweep_dir. destruct (readdir_fails fl).
  - split; [intros ?; split; [done|by left]|by intros [? _]].
  - rewrite map_lookup_filter_Some. simpl. split.
    + intros [? ?]. split; [done|by right].
    + intros [? [?|?]]; [done|]. by split.
Qed.

(** The sweep never touches a file modified within the last thirty
    minutes, whatever fails meanwhile: such a file of either directory is
    still there afterwards with the same time, a file exactly thirty
    minutes old included; and the sweep adds no file and changes no
    time. *)
Theorem sweep_spares_recent_files (now : Z) (fu fo : Faults) (d : Disk)
    (name : string) (mtime : Z) :
  (now - mtime <= 30 * 60 * 1000)%Z ->
  let d' := cleanupFiles now fu fo d in
  (uploads d !! name = Some mtime -> uploads d' !! name = Some mtime)
  /\ (outputs d !! name = Some mtime -> outputs d' !! name = Some mtime)
  /\ uploads d' ⊆ uploads d /\ outputs d' ⊆ outputs d.
Proof.
  intros Hage. simpl.
  assert (Hkeep : forall fl, unlinked now fl name mtime = false).
  { intros fl. unfold unlinked, expired, maxAge.
    replace (30 * 60 * 1000 <? now - mtime)%Z with false
      by (symmetry; apply Z.ltb_ge; lia).
    by rewrite andb_false_r. }
  split; [|split; [|split]].
  - intros Hin. apply sweep_dir_lookup. split; [done|]. right. apply Hkeep.
  - intros Hin. apply sweep_dir_lookup. split; [done|]. right. apply Hkeep.
  - unfold sweep_dir. destruct (readdir_fails fu); [done|].
    apply map_filter_subseteq.
  - unfold sweep_dir. destruct (readdir_fails fo); [done|].
    apply map_filter_subseteq.
Qed.

(** When nothing fails, the sweep leaves exactly the files that are at
    most thirty minutes old; sweeping again at once changes nothing, with
    or without failures; and a later sweep that does not fail makes up for
    an earlier one, whatever failed in that one. *)
Theorem sweep_removes_old_files (now now' : Z) (fl : Faults)
    (dir : gmap string Z) :
  (now <= now')%Z ->
  (forall name mtime,
     sweep_dir now no_faults dir !! name = Some mtime
     <-> dir !! name = Some mtime /\ (now - mtime <= maxAge)%Z)
  /\ sweep_dir now fl (sweep_dir now fl dir) = sweep_dir now fl dir
  /\ sweep_dir now' no_faults (sweep_dir now fl dir)
     = sweep_dir now' no_faults dir.
Proof.
  intros Hle.
  assert (Hno : forall t name mtime,
            unlinked t no_faults name mtime = false <-> (t - mtime <= maxAge)%Z).
  { intros t name mtime. unfold unlinked, expired. simpl.
    rewrite !bool_decide_eq_true_2 by set_solver. simpl.
    rewrite andb_true_r. apply Z.ltb_ge. }
  split; [|split].
  - intros name mtime. rewrite sweep_dir_lookup. simpl.
    rewrite <- Hno. split; [intros [? [?|?]]; done|intros [? ?]; eauto].
  - apply map_eq. intros name. apply option_eq. intros mtime.
    rewrite !sweep_dir_lookup. tauto.
  - apply map_eq. intros name. apply option_eq. intros mtime.
    rewrite !sweep_dir_lookup. simpl. split; [tauto|].
    intros [Hin [?|Hk]]; [done|]. split; [|by right].
    split; [done|]. right.
    apply Hno in Hk. unfold unlinked, expired.
    replace (maxAge <? now - mtime)%Z with false
      by (symmetry; apply Z.ltb_ge; lia).
    by rewrite andb_false_r.
Qed.

(** The hourly sweep bounds the life of a file that nothing deletes
    before: for a file last modified at [mtime], not before the server was
    started, some run of the sweep comes after the file is thirty minutes
    old and no later than ninety minutes after [mtime], and that run, if
    nothing fails in it, removes the file. *)
Theorem sweep_bounds_file_life (t0 mtime : Z) (dir : gmap string Z)
    (name : string) :
  (t0 <= mtime)%Z ->
  dir !! name = Some mtime ->
  exists k,
    (1 <= k)%Z
    /\ (tick t0 k <= mtime + 90 * 60 * 1000)%Z
    /\ sweep_dir (tick t0 k) no_faults dir !! name = None.
Proof.
  intros Hle Hin.
  exists ((mtime + maxAge - t0) / period + 1)%Z.
  assert (Hp : (0 < period)%Z) by done.
  pose proof (Z.div_mod (mtime + maxAge - t0) period ltac:(lia)) as Hdm.
  pose proof (Z.mod_pos_bound (mtime + maxAge - t0) period Hp) as Hmod.
  assert (Hq : (0 <= (mtime + maxAge - t0) / period)%Z).
  { apply Z.div_pos; [|done]. unfold maxAge. lia. }
  unfold tick. split; [lia|]. split.
  { unfold maxAge, period in *. lia. }
  destruct (sweep_dir _ no_faults dir !! name) as [m|] eqn:E; [|done].
  apply sweep_dir_lookup in E. destruct E as [Hm [?|Hk]]; [done|].
  assert (m = mtime) by congruence. subst m.
  unfold unlinked, expired in Hk. simpl in Hk.
  rewrite !bool_decide_eq_true_2 in Hk by set_solver. simpl in Hk.
  rewrite andb_true_r in Hk. apply Z.ltb_ge in Hk.
  unfold maxAge, period in *. lia.
Qed.

End SweepFacts.

(** ** What the second server broadcasts about time *)

Section BroadcastFacts.
Context {rt : Runtime}.

Lemma Qred_inject_Z (z : Z) : Qred (inject_Z z) = inject_Z z.
Proof.
  unfold Qred, inject_Z. simpl.
  pose proof (Z.ggcd_gcd z 1) as Hg.
  pose proof (Z.ggcd_correct_divisors z 1) as Hd.
  destruct (Z.ggcd z 1) as [g [a b]]. simpl in *.
  rewrite Z.gcd_1_r in Hg. subst g. destruct Hd as [Ha Hb].
  assert (Ea : a = z) by lia. assert (Eb : b = 1%Z) by lia.
  by rewrite Ea, Eb.
Qed.

Lemma is_zero_Qeq (q : Q) : JS.is_zero q = true <-> (q == 0)%Q.
Proof.
  unfold JS.is_zero, Qeq. simpl. rewrite Z.eqb_eq. lia.
Qed.

Lemma Math_round_nonneg (y : Q) :
  (0 <= y)%Q -> exists z, (0 <= z)%Z /\ JS.Math_round (JS.Fin y) = JS.num z.
Proof.
  intros Hy. exists (Qfloor (y + (1 # 2))). split; [|done].
  change 0%Z with (Qfloor 0). apply Qfloor_resp_le. lra.
Qed.

(** [Math.round(Math.max(0, x))] is NaN, Infinity, or a whole number that
    is not negative. *)
Lemma round_max_zero (x : JS.number) :
  let r := JS.Math_round (JS.Math_max (JS.num 0) x) in
  r = JS.NaN \/ r = JS.PosInfinity \/ exists z, (0 <= z)%Z /\ r = JS.num z.
Proof.
  destruct x as [| | |y]; simpl.
  - by left.
  - right. by left.
  - right. right. by exists 0%Z.
  - right. right. destruct (Qle_bool (inject_Z 0) y) eqn:E.
    + apply Math_round_nonneg. by apply Qle_bool_iff.
    + by exists 0%Z.
Qed.

(** The remaining time the second server sends is never negative: it is
    NaN, Infinity, or a whole number of seconds that is not negative,
    whatever ffmpeg reports and whatever the clock reads. *)
Theorem remaining_time_is_never_negative (j : Server2.Job) (now now' : Z)
    (progress : Progress) :
  let r := cp_remainingTime (Server2.progressData j now now' progress) in
  r = JS.NaN \/ r = JS.PosInfinity \/ exists z, (0 <= z)%Z /\ r = JS.num z.
Proof.
  unfold Server2.progressData. cbv zeta. cbn [cp_remainingTime].
  apply round_max_zero.
Qed.

(** The seconds elapsed are a finite number. *)
Lemma elapsed_finite (now start : Z) :
  exists e, JS.div (JS.sub (JS.num now) (JS.num start)) (JS.num 1000) = JS.Fin e.
Proof. eexists. reflexivity. Qed.

(** Past zero percent the second server sends a remaining time that is a
    whole number of seconds, not negative: whenever the percent it sends is
    not 0. *)
Theorem remaining_time_is_a_number_past_zero (j : Server2.Job) (now now' : Z)
    (progress : Progress) :
  let d := Server2.progressData j now now' progress in
  cp_percent d <> JS.num 0 ->
  exists z, (0 <= z)%Z /\ cp_remainingTime d = JS.num z.
Proof.
  unfold Server2.progressData. cbv zeta. cbn [cp_percent cp_remainingTime].
  destruct (elapsed_finite now (Server2.startTime j)) as [e ->].
  generalize (JS.div (JS.Math_round (JS.mul (percent progress) (JS.num 100)))
                (JS.num 100)).
  intros x Hx.
  match goal with
  | |- context [JS.Math_max (JS.num 0) ?y] =>
      assert (Hfin : JS.isFinite y = true);
      [|destruct (round_max_zero y) as [Hr|[Hr|Hr]]; [| |exact Hr];
        destruct y as [| | |y']; try discriminate Hfin; simpl in Hr;
        try discriminate Hr;
        destruct (Qle_bool (inject_Z 0) y'); discriminate Hr]
  end.
  destruct x as [| | |c]; try done.
  unfold JS.or_num, JS.truthy in Hx.
  destruct (JS.is_zero c) eqn:Ec; [done|].
  change (JS.div (JS.Fin c) (JS.num 100))
    with (JS.Fin (Qred (c / inject_Z 100))).
  assert (Ez : JS.is_zero (Qred (c / inject_Z 100)) = false).
  { destruct (JS.is_zero (Qred (c / inject_Z 100))) eqn:E; [|done].
    apply is_zero_Qeq in E. rewrite Qred_correct in E.
    assert (Hc : (c == 0)%Q).
    { change (inject_Z 100) with 100%Q in E.
      assert (E' : (c / 100 == c * (1 # 100))%Q)
        by (unfold Qdiv; reflexivity).
      rewrite E' in E. lra. }
    apply is_zero_Qeq in Hc. congruence. }
  unfold JS.div at 1. by rewrite Ez.
Qed.

(** At 100 percent the second server sends that nothing remains and that
    the conversion ends now: the remaining time is 0 and the ETA is the
    clock reading of the listener, as long as that is a time a [Date] can
    hold. *)
Theorem at_full_percent_nothing_remains (j : Server2.Job) (now now' : Z)
    (progress : Progress) :
  percent progress = JS.num 100 ->
  (Z.abs now' <= 8640000000000000)%Z ->
  let d := Server2.progressData j now now' progress in
  cp_percent d = JS.num 100
  /\ cp_remainingTime d = JS.num 0
  /\ cp_eta d = formatLocaleTime now'.
Proof.
  intros Hp Hrange. unfold Server2.progressData. cbv zeta.
  cbn [cp_percent cp_remainingTime cp_eta].
  destruct (elapsed_finite now (Server2.startTime j)) as [e ->].
  rewrite Hp.
  change (JS.div (JS.Math_round (JS.mul (JS.num 100) (JS.num 100)))
            (JS.num 100)) with (JS.num 100).
  change (JS.div (JS.num 100) (JS.num 100)) with (JS.num 1).
  change (JS.sub (JS.div (JS.Fin e) (JS.num 1)) (JS.Fin e))
    with (JS.Fin (Qred (Qred (e / inject_Z 1) + Qred (- e)))).
  assert (E0 : Qred (Qred (e / inject_Z 1) + Qred (- e)) = 0%Q).
  { change 0%Q with (Qred 0). apply Qred_complete.
    rewrite !Qred_correct. change (inject_Z 1) with 1%Q. field. }
  rewrite E0.
  change (JS.Math_max (JS.num 0) (JS.Fin 0)) with (JS.num 0).
  change (JS.mul (JS.num 0) (JS.num 1000)) with (JS.num 0).
  change (JS.add (JS.num now') (JS.num 0))
    with (JS.Fin (Qred (inject_Z now' + 0))).
  assert (E1 : Qred (inject_Z now' + 0) = inject_Z now').
  { rewrite <- (Qred_inject_Z now') at 2. apply Qred_complete. ring. }
  rewrite E1. split; [done|]. split; [done|].
  unfold JS.new_Date.
  assert (E2 : Qle_bool (Qabs (inject_Z now')) (inject_Z 8640000000000000)
               = true).
  { apply Qle_bool_iff. change (Qabs (inject_Z now'))
      with (inject_Z (Z.abs now')). by rewrite <- Zle_Qle. }
  rewrite E2. unfold JS.trunc. simpl. by rewrite Z.quot_1_r.
Qed.

End BroadcastFacts.

(** ** The progress bar of the page *)

Section PageFacts.
Import Page.

Lemma inject_Z_plus_one (z : Z) : (inject_Z z + 1)%Q = inject_Z (z + 1).
Proof. unfold inject_Z, Qplus. simpl. f_equal. lia. Qed.

(** [Math.round] keeps a number that lies between two whole numbers between
    them, and keeps the order. *)
Lemma round_between (lo hi : Z) (x y : Q) :
  (inject_Z lo <= x)%Q -> (x <= y)%Q -> (y <= inject_Z hi)%Q ->
  (lo <= Qfloor (x + (1 # 2)) <= Qfloor (y + (1 # 2)))%Z
  /\ (Qfloor (y + (1 # 2)) <= hi)%Z.
Proof.
  intros Hlo Hxy Hhi. split; [split|].
  - rewrite <- (Qfloor_Z lo). apply Qfloor_resp_le. lra.
  - apply Qfloor_resp_le. lra.
  - pose proof (Qfloor_le (y + (1 # 2))) as Hf.
    assert (H1 : (inject_Z (Qfloor (y + (1 # 2))) < inject_Z (hi + 1))%Q).
    { rewrite <- inject_Z_plus_one. lra. }
    rewrite <- Zlt_Qlt in H1. lia.
Qed.

Lemma upload_ratio (l t : Z) :
  (0 < t)%Z ->
  exists x, JS.div (JS.mul (JS.num l) (JS.num 50)) (JS.num t) = JS.Fin x
            /\ (x == inject_Z l * 50 / inject_Z t)%Q.
Proof.
  intros Ht. eexists. split.
  - unfold JS.div, JS.mul, JS.num, JS.is_zero. simpl.
    destruct (t =? 0)%Z eqn:E; [lia|reflexivity].
  - rewrite Qred_correct.
    change (inject_Z 50) with 50%Q. by rewrite Qred_correct.
Qed.

Lemma upload_percent_range (l l' t : Z) :
  (0 <= l)%Z -> (l <= l')%Z -> (l' <= t)%Z -> (0 < t)%Z ->
  exists z z',
    percentCompleted (JS.num l) (JS.num t) = JS.num z
    /\ percentCompleted (JS.num l') (JS.num t) = JS.num z'
    /\ (0 <= z <= z')%Z /\ (z' <= 50)%Z
    /\ percentCompleted (JS.num t) (JS.num t) = JS.num 50.
Proof.
  intros H0 Hll Hlt Ht. unfold percentCompleted.
  destruct (upload_ratio l t Ht) as (x & -> & Hx).
  destruct (upload_ratio l' t Ht) as (x' & -> & Hx').
  destruct (upload_ratio t t Ht) as (xt & -> & Hxt).
  assert (Htq : (0 < inject_Z t)%Q) by (rewrite (Zlt_Qlt 0 t) in Ht; done).
  assert (Hl0 : (0 <= inject_Z l)%Q) by (rewrite (Zle_Qle 0 l) in H0; done).
  assert (Hl1 : (inject_Z l <= inject_Z l')%Q) by by rewrite <- Zle_Qle.
  assert (Hl2 : (inject_Z l' <= inject_Z t)%Q) by by rewrite <- Zle_Qle.
  assert (Hbx : (0 <= x)%Q).
  { rewrite Hx. apply Qle_shift_div_l; [done|]. lra. }
  assert (Hxx : (x <= x')%Q).
  { rewrite Hx, Hx'. apply Qle_shift_div_l; [done|].
    unfold Qdiv. rewrite <- Qmult_assoc, (Qmult_comm (/ inject_Z t)),
      Qmult_inv_r by lra. lra. }
  assert (Hbx' : (x' <= 50)%Q).
  { rewrite Hx'. apply Qle_shift_div_r; [done|]. lra. }
  assert (Hxt50 : (xt == 50)%Q).
  { rewrite Hxt. unfold Qdiv.
    rewrite (Qmult_comm (inject_Z t)), <- Qmult_assoc, Qmult_inv_r by lra.
    lra. }
  destruct (round_between 0 50 x x' Hbx Hxx Hbx') as [[Hz0 Hzz] Hz50].
  exists (Qfloor (x + (1 # 2))), (Qfloor (x' + (1 # 2))).
  split; [done|]. split; [done|]. split; [done|]. split; [done|].
  unfold JS.Math_round, JS.num. f_equal. f_equal.
  assert (E : (xt + (1 # 2) == 50 + (1 # 2))%Q) by (rewrite Hxt50; reflexivity).
  by rewrite (Qfloor_comp _ _ E).
Qed.

(** The upload fills the first half of the bar.  While [loaded] of [total]
    bytes are sent, the percent shown is a whole number from 0 to 50 that
    does not go down as [loaded] goes up, and it is 50 when all is sent. *)
Theorem upload_fills_half_the_bar (l l' t : Z) :
  (0 <= l)%Z -> (l <= l')%Z -> (l' <= t)%Z -> (0 < t)%Z ->
  exists z z',
    percentCompleted (JS.num l) (JS.num t) = JS.num z
    /\ percentCompleted (JS.num l') (JS.num t) = JS.num z'
    /\ (0 <= z <= z')%Z /\ (z' <= 50)%Z
    /\ percentCompleted (JS.num t) (JS.num t) = JS.num 50.
Proof. apply upload_percent_range. Qed.

(** One ['conversionProgress'] on a bar that shows at most 100: with a
    percent from 0 to 100 the bar moves to a finite value that is not lower
    and is at most 100. *)
Lemma progress_step (pg : Page) (d : ConversionProgress) (a : Q) :
  cp_percent (progress pg) = JS.Fin a -> (a <= 100)%Q ->
  within 0 100 (cp_percent d) ->
  exists c, cp_percent (progress (on_conversionProgress d pg)) = JS.Fin c
            /\ (a <= c)%Q /\ (c <= 100)%Q /\ (50 <= c)%Q.
Proof.
  intros Ha Hle (b & Hb & Hb0 & Hb100). simpl. rewrite Ha, Hb. simpl.
  set (m := Qred (inject_Z 50 + Qred (b * (1 # 2)))).
  assert (Hm : (m == 50 + b * (1 # 2))%Q).
  { unfold m. rewrite Qred_correct. change (inject_Z 50) with 50%Q.
    by rewrite Qred_correct. }
  change (inject_Z 0) with 0%Q in Hb0. change (inject_Z 100) with 100%Q in Hb100.
  destruct (Qle_bool a m) eqn:E.
  - exists m. apply Qle_bool_iff in E. repeat split; try done; lra.
  - exists a. assert (~ (a <= m)%Q) by (rewrite <- Qle_bool_iff; congruence).
    repeat split; try done; lra.
Qed.

Lemma trail_conversion (ds : list ConversionProgress) :
  Forall (fun d => within 0 100 (cp_percent d)) ds ->
  forall pg a,
    cp_percent (progress pg) = JS.Fin a -> (a <= 100)%Q ->
    non_decreasing
      (JS.Fin a
       :: trail pg (map ConversionProgressed ds ++ [ConversionComplete])%list)
    = true.
Proof.
  induction 1 as [|d ds Hd _ IH]; intros pg a Ha Hle.
  - simpl. rewrite andb_true_r. apply Qle_bool_iff.
    change (inject_Z 100) with 100%Q. done.
  - destruct (progress_step pg d a Ha Hle Hd) as (c & Hc & Hac & Hc100 & _).
    change (map ConversionProgressed (d :: ds) ++ [ConversionComplete])%list
      with (ConversionProgressed d
            :: (map ConversionProgressed ds ++ [ConversionComplete]))%list.
    cbn [trail hear]. rewrite Hc.
    change (non_decreasing (JS.Fin a :: JS.Fin c :: ?l))
      with (JS.le (JS.Fin a) (JS.Fin c) && non_decreasing (JS.Fin c :: l)).
    rewrite (IH _ c Hc Hc100), andb_true_r. by apply Qle_bool_iff.
Qed.

(** From the start of the conversion to its completion the bar never goes
    back, as long as the server sends percents from 0 to 100: it shows 50
    at ['conversionStart'], a value that is not lower after each
    ['conversionProgress'], and 100 at ['conversionComplete'], where the
    page is in the stage COMPLETED and no longer converting. *)
Theorem bar_never_goes_back_until_complete (pg : Page)
    (ds : list ConversionProgress) :
  Forall (fun d => within 0 100 (cp_percent d)) ds ->
  let hs := (ConversionStart :: map ConversionProgressed ds
             ++ [ConversionComplete])%list in
  non_decreasing (trail pg hs) = true
  /\ cp_percent (progress (run pg hs)) = JS.num 100
  /\ progressStage (run pg hs) = COMPLETED
  /\ converting (run pg hs) = false.
Proof.
  intros Hds. simpl. split.
  - apply (trail_conversion ds Hds (on_conversionStart pg) (inject_Z 50));
      [done|]. change (inject_Z 50) with 50%Q. lra.
  - unfold run. simpl. rewrite fold_left_app. simpl. done.
Qed.

(** The bar stays on the scale: from a percent from 0 to 100, whatever the
    page hears, in whatever order, the percent it shows is still a finite
    number from 0 to 100, as long as no upload reports more sent than there
    is to send and the server sends percents from 0 to 100. *)
Theorem bar_stays_on_the_scale (pg : Page) (hs : list Heard) :
  within 0 100 (cp_percent (progress pg)) ->
  Forall plausible hs ->
  within 0 100 (cp_percent (progress (run pg hs))).
Proof.
  intros Hpg Hhs. revert pg Hpg. unfold run.
  induction Hhs as [|h hs Hh _ IH]; intros pg Hpg; [done|].
  simpl. apply IH. destruct h as [loaded total| |d| |]; simpl in *.
  - destruct Hh as (l & t & -> & -> & Hl0 & Hlt).
    unfold onUploadProgress, JS.truthy, JS.num, JS.is_zero. simpl.
    destruct (t =? 0)%Z eqn:E; [done|]. simpl.
    assert (Ht : (0 < t)%Z) by lia.
    destruct (upload_percent_range l l t)
      as (z0 & z & _ & Hz & [Hz0 Hzz] & Hz50 & _); [lia..|].
    unfold JS.num in Hz. rewrite Hz.
    exists (inject_Z z). split; [done|]. rewrite <- !Zle_Qle. lia.
  - exists (inject_Z 50). split; [done|]. rewrite <- !Zle_Qle. lia.
  - destruct Hpg as (a & Ha & Ha0 & Ha100).
    change (inject_Z 100) with 100%Q in *. change (inject_Z 0) with 0%Q in *.
    destruct (progress_step pg d a Ha Ha100 Hh) as (c & Hc & Hac & Hc100 & Hc50).
    simpl in Hc. rewrite Hc. exists c. split; [done|].
    change (inject_Z 0) with 0%Q. change (inject_Z 100) with 100%Q.
    split; lra.
  - exists (inject_Z 100). split; [done|]. rewrite <- !Zle_Qle. lia.
  - done.
Qed.

End PageFacts.

(** ** The time the page prints *)

Section FormatFacts.
Import Page.

Lemma trunc_div (a : Z) (b k : positive) :
  (0 <= a)%Z ->
  JS.trunc ((a # b) / inject_Z (Z.pos k)) = (a / Z.pos b / Z.pos k)%Z.
Proof.
  intros Ha. unfold JS.trunc. simpl.
  rewrite Z.quot_div_nonneg by lia.
  rewrite Z.mul_1_r, Pos2Z.inj_mul. rewrite Z.div_div by lia. reflexivity.
Qed.

Lemma floor_div (a : Z) (b k : positive) :
  floor ((a # b) / inject_Z (Z.pos k)) = (a / Z.pos b / Z.pos k)%Z.
Proof.
  unfold floor. simpl. rewrite Z.mul_1_r, Pos2Z.inj_mul.
  rewrite Z.div_div by lia. reflexivity.
Qed.

(** [a % k] for [a] not negative: the whole part of [a] is reduced below
    [k], the fraction stays. *)
Lemma rem_form (a : Z) (b k : positive) :
  (0 <= a)%Z ->
  (rem (a # b) (Z.pos k)
   == (Z.pos b * ((a / Z.pos b) mod Z.pos k) + a mod Z.pos b) # b)%Q.
Proof.
  intros Ha. unfold rem. rewrite trunc_div by assumption.
  unfold Qeq, Qminus, Qplus, Qopp, inject_Z. simpl.
  pose proof (Z.div_mod a (Z.pos b) ltac:(lia)).
  pose proof (Z.div_mod (a / Z.pos b) (Z.pos k) ltac:(lia)).
  nia.
Qed.

Lemma whole_part (b : positive) (m r : Z) :
  (0 <= r < Z.pos b)%Z -> ((Z.pos b * m + r) / Z.pos b = m)%Z.
Proof.
  intros Hr. rewrite (Z.mul_comm (Z.pos b) m), Z.div_add_l by lia.
  rewrite Z.div_small by lia. lia.
Qed.

(** What [formatTime] prints.  Without a finite number of seconds it prints
    00:00:00.  For a number of seconds that is not negative and below 2^53,
    where no quotient by 3600 or 60 rounds up to the next whole number, it
    prints the whole seconds split into hours, minutes below 60 and seconds
    below 60: put together again they are the whole seconds. *)
Theorem formatTime_splits_the_seconds (q : Q) :
  (0 <= q)%Q -> (q < 9007199254740992)%Q ->
  let n := Qfloor q in
  formatTime JS.NaN = "00:00:00"
  /\ formatTime JS.PosInfinity = "00:00:00"
  /\ formatTime JS.NegInfinity = "00:00:00"
  /\ formatTime (JS.Fin q)
     = padStart2 (pretty (n / 3600)%Z) +:+ ":"
       +:+ padStart2 (pretty (n mod 3600 / 60)%Z) +:+ ":"
       +:+ padStart2 (pretty (n mod 60)%Z)
  /\ (0 <= hrs q)%Z /\ (0 <= mins q < 60)%Z /\ (0 <= secs q < 60)%Z
  /\ (hrs q * 3600 + mins q * 60 + secs q = n)%Z.
Proof.
  intros Hq _. destruct q as [a b].
  assert (Ha : (0 <= a)%Z) by (unfold Qle in Hq; simpl in Hq; lia).
  assert (Hn : Qfloor (a # b) = (a / Z.pos b)%Z) by reflexivity.
  assert (Hn0 : (0 <= a / Z.pos b)%Z) by (apply Z.div_pos; lia).
  pose proof (Z.mod_pos_bound a (Z.pos b) ltac:(lia)) as Hr.
  assert (Hh : hrs (a # b) = (a / Z.pos b / 3600)%Z).
  { unfold hrs. apply (floor_div a b 3600). }
  assert (Hm : mins (a # b) = ((a / Z.pos b) mod 3600 / 60)%Z).
  { unfold mins, floor.
    rewrite (Qfloor_comp _ _ (Qdiv_comp _ _ (rem_form a b 3600 Ha)
                                 _ _ (Qeq_refl (inject_Z 60)))).
    pose proof (floor_div (Z.pos b * ((a / Z.pos b) mod 3600) + a mod Z.pos b)
                  b 60) as Hf.
    unfold floor in Hf. rewrite Hf. by rewrite whole_part. }
  assert (Hs : secs (a # b) = ((a / Z.pos b) mod 60)%Z).
  { unfold secs, floor. rewrite (Qfloor_comp _ _ (rem_form a b 60 Ha)).
    change (Qfloor (?x # b)) with (x / Z.pos b)%Z. by rewrite whole_part. }
  cbv zeta. rewrite Hn.
  split; [done|]. split; [done|]. split; [done|]. split.
  { unfold formatTime. by rewrite Hh, Hm, Hs. }
  rewrite Hh, Hm, Hs. clear Hh Hm Hs Hn Hr.
  generalize dependent (a / Z.pos b)%Z. intros n Hn0.
  pose proof (Z.div_mod n 3600 ltac:(lia)).
  pose proof (Z.div_mod (n mod 3600) 60 ltac:(lia)).
  pose proof (Z.mod_pos_bound n 3600 ltac:(lia)).
  pose proof (Z.mod_pos_bound n 60 ltac:(lia)).
  pose proof (Z.mod_pos_bound (n mod 3600) 60 ltac:(lia)).
  assert (Hmm : ((n mod 3600) mod 60 = n mod 60)%Z).
  { rewrite <- (Z.mod_mod_divide n 3600 60); [done|]. by exists 60%Z. }
  assert (0 <= n / 3600)%Z by (apply Z.div_pos; lia).
  assert (0 <= n mod 3600 / 60 < 60)%Z.
  { split; [apply Z.div_pos; lia|]. apply Z.div_lt_upper_bound; lia. }
  lia.
Qed.

End FormatFacts.

(** ** The two file filters *)

Section FilterFacts.

Lemma after_last_app (c : ascii) (pre s e : string) :
  Posix.after_last c s = Some e -> Posix.after_last c (pre +:+ s) = Some e.
Proof.
  intros He. induction pre as [|x pre IH]; [done|].
  simpl. by rewrite IH.
Qed.

Lemma after_last_split (c : ascii) (s r : string) :
  Posix.after_last c s = Some r -> exists pre, s = pre +:+ String c r.
Proof.
  revert r. induction s as [|x s IH]; intros r Hr; [done|].
  simpl in Hr. destruct (Posix.after_last c s) as [r'|] eqn:E.
  - injection Hr as ->. destruct (IH r eq_refl) as [pre ->].
    by exists (String x pre).
  - destruct (Ascii.eqb x c) eqn:Ex; [|done]. injection Hr as ->.
    apply Ascii.eqb_eq in Ex. subst x. by exists "".
Qed.

(** What follows the last dot of the last part of a path follows the last
    dot of the path. *)
Lemma last_dot_of_last_part (name e : string) :
  Posix.after_last "." (Posix.last_part name) = Some e ->
  Posix.after_last "." name = Some e.
Proof.
  unfold Posix.last_part.
  destruct (Posix.after_last "/" name) as [r|] eqn:E; [|done].
  intros He. destruct (after_last_split _ _ _ E) as [pre ->].
  apply after_last_app. simpl. by rewrite He.
Qed.

(** The page lets through whatever the first server accepts.  With POSIX
    paths and ASCII case, an upload that passes [fileFilter] has a name for
    which [handleFileChange] finds a supported format.  Not the other way
    round: the page takes a file named [mp4], which has no extension for
    the server. *)
Theorem page_filter_is_wider (file : Upload) :
  Server.fileFilter (rt := posix) file = inr true ->
  is_Some (Page.supportedFormat (rt := posix) (originalname file))
  /\ is_Some (Page.supportedFormat (rt := posix) "mp4")
  /\ exists message,
       Server.fileFilter (rt := posix)
         {| originalname := "mp4"; mimetype := "video/mp4"; bytes := 1 |}
       = inl message.
Proof.
  intros Hok. split; [|split; [by eexists|by eexists]].
  unfold Server.fileFilter in Hok. simpl in Hok.
  destruct (bool_decide _) eqn:Hin; [|done]. clear Hok.
  apply bool_decide_eq_true in Hin.
  unfold Posix.extname in Hin.
  destruct (Posix.after_last "." (Posix.last_part (originalname file)))
    as [e|] eqn:He.
  2:{ vm_compute in Hin. set_solver. }
  destruct (_ || _).
  { vm_compute in Hin. set_solver. }
  apply last_dot_of_last_part in He.
  unfold Page.supportedFormat, Page.extension, Page.last_segment.
  rewrite He. simpl toLowerCase.
  change (Posix.lowercase ("." +:+ e)) with ("." +:+ Posix.lowercase e) in Hin.
  assert (Hcase : Posix.lowercase e ∈ ["mp4"; "mkv"; "mov"; "avi"; "flv";
                                        "wmv"; "ivf"]).
  { unfold Server.supportedFormats in Hin.
    change ("." +:+ Posix.lowercase e)
      with (String "." (Posix.lowercase e)) in Hin.
    repeat (apply elem_of_cons in Hin as [Hin|Hin];
            [injection Hin as Hin; rewrite Hin; set_solver|]).
    by apply elem_of_nil in Hin. }
  repeat (apply elem_of_cons in Hcase as [->|Hcase]; [by eexists|]).
  by apply elem_of_nil in Hcase.
Qed.

End FilterFacts.

(** ** The names of the stored uploads *)

Section NameFacts.
Context {rt : Runtime}.

Lemma append_cons (x : ascii) (a b : string) :
  String x a +:+ b = String x (a +:+ b).
Proof. reflexivity. Qed.

Lemma append_assoc (a b c : string) : (a +:+ b) +:+ c = a +:+ (b +:+ c).
Proof.
  induction a as [|x a IH]; [done|]. rewrite !append_cons. by rewrite IH.
Qed.

Lemma length_append (a b : string) :
  String.length (a +:+ b) = String.length a + String.length b.
Proof.
  induction a as [|x a IH]; [done|]. rewrite append_cons. simpl.
  by rewrite IH.
Qed.

(** A common ending can be dropped. *)
Lemma append_inv_tail (a b t : string) : a +:+ t = b +:+ t -> a = b.
Proof.
  revert b. induction a as [|x a IH]; intros [|y b] H.
  - done.
  - apply (f_equal String.length) in H. rewrite append_cons in H.
    rewrite ?length_append in H. simpl in H. rewrite ?length_append in H.
    lia.
  - apply (f_equal String.length) in H. rewrite append_cons in H.
    rewrite ?length_append in H. simpl in H. rewrite ?length_append in H.
    lia.
  - rewrite !append_cons in H. injection H as -> H. f_equal. by apply IH.
Qed.

Lemma no_dash_append (a b : string) :
  Text.no_dash a -> Text.no_dash b -> Text.no_dash (a +:+ b).
Proof.
  induction a as [|x a IH]; [done|]. rewrite append_cons. simpl.
  intros [? ?] ?. split; auto.
Qed.

(** The digits of a number hold no dash. *)
Lemma pretty_N_go_no_dash (x : N) (s : string) :
  exists ds, pretty_N_go x s = ds +:+ s /\ Text.no_dash ds.
Proof.
  revert s. induction (N.lt_wf_0 x) as [x _ IH]; intros s.
  assert (x = 0 \/ 0 < x)%N as [->|Hx] by lia.
  - exists "". by rewrite pretty_N_go_0.
  - rewrite pretty_N_go_step by done.
    destruct (IH (x `div` 10)%N ltac:(by apply N.div_lt)
                (String (pretty_N_char (x `mod` 10)) s)) as (ds & -> & Hds).
    exists (ds +:+ String (pretty_N_char (x `mod` 10)) "").
    split; [by rewrite append_assoc|].
    apply no_dash_append; [done|]. simpl. split; [|done].
    unfold pretty_N_char. by repeat case_match.
Qed.

Lemma pretty_no_dash (z : Z) : (0 <= z)%Z -> Text.no_dash (pretty z).
Proof.
  intros Hz. destruct z as [|p|p]; [by simpl|..|lia].
  unfold pretty, pretty_Z, pretty, pretty_positive, pretty, pretty_N.
  destruct (decide (N.pos p = 0%N)); [done|].
  destruct (pretty_N_go_no_dash (N.pos p) "") as (ds & -> & Hds).
  apply no_dash_append; done.
Qed.

(** Two texts without a dash, each followed by a dash and more, are told
    apart by the first dash. *)
Lemma split_at_dash (a b r r' : string) :
  Text.no_dash a -> Text.no_dash b ->
  a +:+ String "-" r = b +:+ String "-" r' -> a = b /\ r = r'.
Proof.
  revert b. induction a as [|x a IH]; intros [|y b] Ha Hb H;
    rewrite ?append_cons in H; simpl in Ha, Hb.
  - change ("" +:+ ?x) with x in H. by injection H as ->.
  - change ("" +:+ ?x) with x in H. injection H as <- _. by destruct Hb.
  - change ("" +:+ ?x) with x in H. injection H as -> _. by destruct Ha.
  - injection H as -> H. destruct Ha as [_ Ha], Hb as [_ Hb].
    destruct (IH b Ha Hb H) as [-> ->]. done.
Qed.

(** Two uploads of one file get one stored name only when both the clock
    and the random number are the same: the stored name tells the time and
    the random number of the upload. *)
Theorem stored_names_tell_uploads_apart (env env' : Server.Env)
    (file : Upload) :
  (0 <= Server.now env)%Z -> (0 <= Server.now env')%Z ->
  Server.storage_filename env file = Server.storage_filename env' file ->
  Server.now env = Server.now env' /\ Server.random env = Server.random env'.
Proof.
  intros Hn Hn' H. unfold Server.storage_filename in H. cbv zeta in H.
  rewrite !append_assoc in H.
  change ("-" +:+ ?x) with (String "-" x) in H.
  apply split_at_dash in H as [H1 H2]; [|by apply pretty_no_dash..].
  apply append_inv_tail in H2.
  split; by eapply (inj pretty).
Qed.

End NameFacts.

(** ** Uploads at the size limit *)

Section LimitFacts.
Context {rt : Runtime}.

(** A supported upload below 500 MB is stored in the upload directory under
    the time, the random number and its own extension, whatever the form
    says, and then the request fails: [size] throws in the handler, the
    request is answered 500, no command is started and nothing is counted.
    The stored upload stays. *)
Theorem supported_upload_is_stored_then_fails (env : Server.Env)
    (file : Upload) (form : Form) (s : State Server.Job) :
  toLowerCase (path_extname (originalname file)) ∈ Server.supportedFormats ->
  (bytes file < 524288000)%Z ->
  responses s !! next_request s = None ->
  let s' := Server.post env (Some file) form s in
  let p := path_join Server.uploadDir (Server.storage_filename env file) in
  files s' = {[p]} ∪ files s
  /\ responses s'
     = <[next_request s :=
           {| status := 500;
              body := [("message", JStr "Invalid size specified: ?x?")] |}]>
         (responses s)
  /\ jobs s' = jobs s
  /\ conversionStats s' = conversionStats s
  /\ timers s' = timers s /\ emitted s' = emitted s /\ thrown s' = thrown s
  /\ next_request s' = S (next_request s).
Proof.
  intros Hext Hsz Hnew. cbv zeta.
  rewrite post_accepted by done. cbv zeta. rewrite convert_with_file.
  unfold res_error, res_json. simpl. rewrite Hnew. by repeat split.
Qed.

(** One byte over 500 MB and the upload is refused, supported or not:
    nothing is stored, no command is started, nothing is counted, and the
    request is answered 500. *)
Theorem oversized_upload_is_refused (env : Server.Env) (file : Upload)
    (form : Form) (s : State Server.Job) :
  (524288000 < bytes file)%Z ->
  responses s !! next_request s = None ->
  let s' := Server.post env (Some file) form s in
  files s' = files s /\ jobs s' = jobs s
  /\ conversionStats s' = conversionStats s /\ timers s' = timers s
  /\ status <$> responses s' !! next_request s = Some 500.
Proof.
  intros Hsz Hnew. simpl.
  unfold Server.post, Server.upload_single.
  destruct (Server.fileFilter file) as [err|[]] eqn:Hf.
  - unfold res_error, res_json. simpl. rewrite Hnew.
    by rewrite lookup_insert_eq.
  - replace (Server.fileSize <? bytes file)%Z with true
      by (symmetry; apply Z.ltb_lt; unfold Server.fileSize; lia).
    rewrite orb_true_l.
    unfold res_error, res_json. simpl. rewrite Hnew.
    by rewrite lookup_insert_eq.
  - unfold Server.fileFilter in Hf. by destruct (bool_decide _).
Qed.

End LimitFacts.

(** ** The further properties on sample inputs *)

(** [clip] is posted to the second server and its command ends: the request
    is answered 200 with the name of the output. *)
Lemma answers_tell_outcomes_witness :
  Server2.reachable (rt := posix) Sample.ended_world
  /\ exists j,
       jobs (Server2.server Sample.ended_world) !! 0 = Some j
       /\ responses (Server2.server Sample.ended_world) !! 0
          = Some (Server2.ok_response j).
Proof.
  split; [exact ended_world_is_reachable|].
  apply (proj1 (answers_tell_outcomes (rt := posix) Sample.ended_world
                  ended_world_is_reachable) 0).
  vm_compute. set_solver.
Defined.


(** A file exactly thirty minutes old is spared. *)
Lemma sweep_spares_recent_files_witness :
  (1700001800000 - 1700000000000 <= 30 * 60 * 1000)%Z
  /\ Sweep.uploads
       (Sweep.cleanupFiles 1700001800000 Sweep.no_faults Sweep.no_faults
          (Sample2.disk 1700000000000)) !! "1700000000000-42.mp4"
     = Some 1700000000000%Z.
Proof.
  assert (H : (1700001800000 - 1700000000000 <= 30 * 60 * 1000)%Z) by lia.
  split; [exact H|].
  apply (proj1 (sweep_spares_recent_files 1700001800000 Sweep.no_faults
                  Sweep.no_faults (Sample2.disk 1700000000000)
                  "1700000000000-42.mp4" 1700000000000 H)).
  apply lookup_singleton_eq.
Defined.

(** Two sweeps an hour apart. *)
Lemma sweep_removes_old_files_witness :
  (1700001800000 <= 1700005400000)%Z
  /\ Sweep.sweep_dir 1700005400000 Sweep.no_faults
       (Sweep.sweep_dir 1700001800000 Sweep.no_faults
          (Sweep.uploads (Sample2.disk 1700000000000)))
     = Sweep.sweep_dir 1700005400000 Sweep.no_faults
         (Sweep.uploads (Sample2.disk 1700000000000)).
Proof.
  assert (H : (1700001800000 <= 1700005400000)%Z) by lia.
  split; [exact H|].
  exact (proj2 (proj2 (sweep_removes_old_files 1700001800000 1700005400000
                         Sweep.no_faults
                         (Sweep.uploads (Sample2.disk 1700000000000)) H))).
Defined.

(** A file written ten minutes after the server was started. *)
Lemma sweep_bounds_file_life_witness :
  (1700000000000 <= 1700000600000)%Z
  /\ Sweep.uploads (Sample2.disk 1700000600000) !! "1700000000000-42.mp4"
     = Some 1700000600000%Z
  /\ exists k,
       (1 <= k)%Z
       /\ (Sweep.tick 1700000000000 k <= 1700000600000 + 90 * 60 * 1000)%Z
       /\ Sweep.sweep_dir (Sweep.tick 1700000000000 k) Sweep.no_faults
            (Sweep.uploads (Sample2.disk 1700000600000))
            !! "1700000000000-42.mp4" = None.
Proof.
  assert (H : (1700000000000 <= 1700000600000)%Z) by lia.
  assert (Hin : Sweep.uploads (Sample2.disk 1700000600000)
                  !! "1700000000000-42.mp4" = Some 1700000600000%Z)
    by apply lookup_singleton_eq.
  split; [exact H|]. split; [exact Hin|].
  exact (sweep_bounds_file_life 1700000000000 1700000600000 _ _ H Hin).
Defined.

(** The second server at 80 percent, ten seconds after the start. *)
Lemma remaining_time_is_a_number_past_zero_witness :
  cp_percent (Server2.progressData (rt := posix) Sample.job2 1700000010000
                1700000010000 (Sample.at_percent 80)) <> JS.num 0
  /\ exists z,
       (0 <= z)%Z
       /\ cp_remainingTime
            (Server2.progressData (rt := posix) Sample.job2 1700000010000
               1700000010000 (Sample.at_percent 80)) = JS.num z.
Proof.
  assert (H : cp_percent (Server2.progressData (rt := posix) Sample.job2
                            1700000010000 1700000010000 (Sample.at_percent 80))
              <> JS.num 0) by (vm_compute; discriminate).
  split; [exact H|].
  exact (remaining_time_is_a_number_past_zero (rt := posix) Sample.job2
           1700000010000 1700000010000 (Sample.at_percent 80) H).
Defined.

(** The second server at 100 percent. *)
Lemma at_full_percent_nothing_remains_witness :
  percent (Sample.at_percent 100) = JS.num 100
  /\ (Z.abs 1700000020000 <= 8640000000000000)%Z
  /\ cp_remainingTime
       (Server2.progressData (rt := posix) Sample.job2 1700000020000
          1700000020000 (Sample.at_percent 100)) = JS.num 0.
Proof.
  assert (H : (Z.abs 1700000020000 <= 8640000000000000)%Z) by (simpl; lia).
  split; [reflexivity|]. split; [exact H|].
  exact (proj1 (proj2 (at_full_percent_nothing_remains (rt := posix)
                         Sample.job2 1700000020000 1700000020000
                         (Sample.at_percent 100) eq_refl H))).
Defined.

(** A quarter, then half of four bytes sent. *)
Lemma upload_fills_half_the_bar_witness :
  (0 <= 1)%Z /\ (1 <= 2)%Z /\ (2 <= 4)%Z /\ (0 < 4)%Z
  /\ exists z z',
       Page.percentCompleted (JS.num 1) (JS.num 4) = JS.num z
       /\ Page.percentCompleted (JS.num 2) (JS.num 4) = JS.num z'
       /\ (0 <= z <= z')%Z /\ (z' <= 50)%Z
       /\ Page.percentCompleted (JS.num 4) (JS.num 4) = JS.num 50.
Proof.
  assert (H1 : (0 <= 1)%Z) by lia. assert (H2 : (1 <= 2)%Z) by lia.
  assert (H3 : (2 <= 4)%Z) by lia. assert (H4 : (0 < 4)%Z) by lia.
  split; [exact H1|]. split; [exact H2|]. split; [exact H3|].
  split; [exact H4|].
  exact (upload_fills_half_the_bar 1 2 4 H1 H2 H3 H4).
Defined.

Lemma sample_sent_within (p : Z) :
  (0 <= p <= 100)%Z -> Page.within 0 100 (cp_percent (Sample2.sent p)).
Proof.
  intros Hp. exists (inject_Z p). split; [done|]. rewrite <- !Zle_Qle. lia.
Qed.

(** The server sends 80 and then 60 percent before it completes. *)
Lemma bar_never_goes_back_until_complete_witness :
  Forall (fun d => Page.within 0 100 (cp_percent d))
    [Sample2.sent 80; Sample2.sent 60]
  /\ non_decreasing
       (Page.trail Sample2.page
          [Page.ConversionStart; Page.ConversionProgressed (Sample2.sent 80);
           Page.ConversionProgressed (Sample2.sent 60);
           Page.ConversionComplete]) = true.
Proof.
  assert (H : Forall (fun d => Page.within 0 100 (cp_percent d))
                [Sample2.sent 80; Sample2.sent 60]).
  { repeat constructor; apply sample_sent_within; lia. }
  split; [exact H|].
  exact (proj1 (bar_never_goes_back_until_complete Sample2.page
                  [Sample2.sent 80; Sample2.sent 60] H)).
Defined.

(** Half of the upload, then the start of the conversion and 80 percent. *)
Lemma bar_stays_on_the_scale_witness :
  Page.within 0 100 (cp_percent (Page.progress Sample2.page))
  /\ Forall Page.plausible
       [Page.UploadProgress (JS.num 2) (JS.num 4); Page.ConversionStart;
        Page.ConversionProgressed (Sample2.sent 80)]
  /\ Page.within 0 100
       (cp_percent
          (Page.progress
             (Page.run Sample2.page
                [Page.UploadProgress (JS.num 2) (JS.num 4);
                 Page.ConversionStart;
                 Page.ConversionProgressed (Sample2.sent 80)]))).
Proof.
  assert (H0 : Page.within 0 100 (cp_percent (Page.progress Sample2.page))).
  { apply (sample_sent_within 0). lia. }
  assert (H : Forall Page.plausible
                [Page.UploadProgress (JS.num 2) (JS.num 4);
                 Page.ConversionStart;
                 Page.ConversionProgressed (Sample2.sent 80)]).
  { repeat constructor.
    - exists 2%Z, 4%Z. repeat split; lia.
    - apply (sample_sent_within 80). lia. }
  split; [exact H0|]. split; [exact H|].
  exact (bar_stays_on_the_scale Sample2.page _ H0 H).
Defined.

(** One hour, two minutes and five and a half seconds. *)
Lemma formatTime_splits_the_seconds_witness :
  (0 <= 7451 # 2)%Q /\ (7451 # 2 < 9007199254740992)%Q
  /\ Page.formatTime (JS.Fin (7451 # 2)) = "01:02:05"
  /\ (Page.hrs (7451 # 2) * 3600 + Page.mins (7451 # 2) * 60
      + Page.secs (7451 # 2) = Qfloor (7451 # 2))%Z.
Proof.
  assert (H : (0 <= 7451 # 2)%Q) by (unfold Qle; simpl; lia).
  assert (H' : (7451 # 2 < 9007199254740992)%Q) by (unfold Qlt; simpl; lia).
  split; [exact H|]. split; [exact H'|]. split; [by vm_compute|].
  exact (proj2 (proj2 (proj2 (proj2 (proj2 (proj2 (proj2
           (formatTime_splits_the_seconds (7451 # 2) H H')))))))).
Defined.

Lemma page_filter_is_wider_witness :
  Server.fileFilter (rt := posix) Sample.clip = inr true
  /\ is_Some (Page.supportedFormat (rt := posix) (originalname Sample.clip)).
Proof.
  split; [reflexivity|].
  exact (proj1 (page_filter_is_wider Sample.clip eq_refl)).
Defined.

Lemma stored_names_tell_uploads_apart_witness :
  (0 <= Server.now Sample.env)%Z
  /\ Server.storage_filename (rt := posix) Sample.env Sample.clip
     = Server.storage_filename (rt := posix) Sample.env Sample.clip
  /\ Server.random Sample.env = Server.random Sample.env.
Proof.
  assert (H : (0 <= Server.now Sample.env)%Z) by (vm_compute; discriminate).
  split; [exact H|]. split; [reflexivity|].
  exact (proj2 (stored_names_tell_uploads_apart (rt := posix) Sample.env
                  Sample.env Sample.clip H H eq_refl)).
Defined.

(** [clip] posted to the first server, freshly started, with the output
    format [webm]. *)
Lemma supported_upload_is_stored_then_fails_witness :
  toLowerCase (Runtime := posix)
    (path_extname (Runtime := posix) (originalname Sample.clip))
  ∈ Server.supportedFormats
  /\ (bytes Sample.clip < 524288000)%Z
  /\ responses (initial (J := Server.Job))
       !! next_request (initial (J := Server.Job)) = None
  /\ files (Server.post (rt := posix) Sample.env (Some Sample.clip)
              Sample.to_webm initial)
     = {["/srv/backend/uploads/1700000000000-42.mp4"]} ∪ ∅
  /\ jobs (Server.post (rt := posix) Sample.env (Some Sample.clip)
             Sample.to_webm initial) = ∅.
Proof.
  assert (H : (bytes Sample.clip < 524288000)%Z) by (vm_compute; reflexivity).
  pose proof (supported_upload_is_stored_then_fails (rt := posix) Sample.env
                Sample.clip Sample.to_webm initial sample_clip_supported H
                eq_refl) as Hall.
  split; [exact sample_clip_supported|]. split; [exact H|].
  split; [reflexivity|]. split; [exact (proj1 Hall)|].
  exact (proj1 (proj2 (proj2 Hall))).
Defined.

(** [clip] with one byte too many. *)
Lemma oversized_upload_is_refused_witness :
  (524288000 < bytes Sample2.huge)%Z
  /\ responses (initial (J := Server.Job))
       !! next_request (initial (J := Server.Job)) = None
  /\ files (Server.post (rt := posix) Sample.env (Some Sample2.huge)
              Sample.no_fields initial) = ∅.
Proof.
  assert (H : (524288000 < bytes Sample2.huge)%Z) by (vm_compute; reflexivity).
  split; [exact H|]. split; [reflexivity|].
  exact (proj1 (oversized_upload_is_refused (rt := posix) Sample.env
                  Sample2.huge Sample.no_fields initial H eq_refl)).
Defined.
